(** * Postal-code search service: a model of [src/services/search-service.js]

    The development follows the class [SearchService]: the similarity scorer
    [calculateSimilarity], the three fuzzy strategies, the aggregation in
    [findFuzzyMatches], the formatter [formatResults] and the orchestrator
    [searchPostalCode].

    Modelling conventions.
    - A JavaScript string is a [string]: a sequence of code units, here the
      8-bit characters of the Standard Library, read as ASCII.  Case mapping
      and white-space stripping act on that alphabet.
    - A JavaScript number that holds a score is an exact rational ([Q]);
      the rounding of binary floating point is not modelled, so a comparison
      whose two sides are equal in the model may go either way in the
      program.  Lengths, counts and edit distances are natural numbers; the
      accuracy column (TINYINT, nullable) is an [option Z].  The product
      [postalCode.length * 0.6] is floored, so it is computed on integers as
      [6 * n / 10].
    - [Array.prototype.sort] is a stable sort; the comparator of
      [findFuzzyMatches] ties scores within 0.01 and is therefore not
      transitive, so the result depends on the sorting method, which is
      taken to be insertion.
    - The store ([database.getStatements()]) is a record of three functions.
      Each call either resolves with rows or rejects; every call is appended
      to a trace, so that "no store access" is a statement about the trace.
    - The elements of a batch come from a request body: they are JSON
      values, and so are the properties the service reads from them.
    - Logging and the wall-clock field [searchTime] are left out: no property
      below refers to them. *)

From Stdlib Require Import List Arith Lia ZArith QArith Qminmax Qabs Lqa Sorted.
From Stdlib Require Import Bool Ascii String.
From Stdlib Require Import Qround Permutation.
Import ListNotations.

Local Open Scope string_scope.
Local Open Scope list_scope.

(** ** JavaScript string primitives *)

Module JS.

Definition is_upper (c : ascii) : bool :=
  let n := nat_of_ascii c in (65 <=? n)%nat && (n <=? 90)%nat.

Definition is_lower (c : ascii) : bool :=
  let n := nat_of_ascii c in (97 <=? n)%nat && (n <=? 122)%nat.

(** [c.toLowerCase()] on one code unit. *)
Definition lower_char (c : ascii) : ascii :=
  if is_upper c then ascii_of_nat (nat_of_ascii c + 32) else c.

Definition upper_char (c : ascii) : ascii :=
  if is_lower c then ascii_of_nat (nat_of_ascii c - 32) else c.

Fixpoint map_string (f : ascii -> ascii) (s : string) : string :=
  match s with
  | EmptyString => EmptyString
  | String c s' => String (f c) (map_string f s')
  end.

Definition toLowerCase : string -> string := map_string lower_char.
Definition toUpperCase : string -> string := map_string upper_char.

(** White space removed by [trim]: TAB, LF, VT, FF, CR and SPACE. *)
Definition is_space (c : ascii) : bool :=
  let n := nat_of_ascii c in
  ((9 <=? n)%nat && (n <=? 13)%nat) || (n =? 32)%nat.

Fixpoint trimStart (s : string) : string :=
  match s with
  | EmptyString => EmptyString
  | String c s' => if is_space c then trimStart s' else s
  end.

(** [trimEnd] keeps a character when it is not a space or when something
    is left after it. *)
Fixpoint trimEnd (s : string) : string :=
  match s with
  | EmptyString => EmptyString
  | String c s' =>
      match trimEnd s' with
      | EmptyString => if is_space c then EmptyString else String c EmptyString
      | t => String c t
      end
  end.

Definition trim (s : string) : string := trimEnd (trimStart s).

(** [s.substring(0, len)] *)
Definition prefix (len : nat) (s : string) : string := substring 0 len s.

(** [hay.includes(needle)] *)
Fixpoint includes (hay needle : string) : bool :=
  String.prefix needle hay ||
  match hay with
  | EmptyString => false
  | String _ hay' => includes hay' needle
  end.

(** [a.localeCompare(b)]: negative, zero or positive; characters are
    compared left to right by code. *)
Definition localeCompare (a b : string) : Z :=
  match String.compare a b with
  | Lt => (-1)%Z
  | Eq => 0%Z
  | Gt => 1%Z
  end.

(** Truthiness of a nullable string: [null], [undefined] and the empty
    string are falsy. *)
Definition truthy (v : option string) : bool :=
  match v with
  | Some s => negb (s =? "")
  | None => false
  end.

(** Template-literal interpolation of a nullable string. *)
Definition interp (v : option string) : string :=
  match v with
  | Some s => s
  | None => "null"
  end.

(** [parts.join(sep)] *)
Fixpoint join (sep : string) (parts : list string) : string :=
  match parts with
  | [] => ""
  | [p] => p
  | p :: rest => (p ++ sep ++ join sep rest)%string
  end.

End JS.

(** ** Edit distance

    [levenshtein.get] comes from the package [fast-levenshtein], a dependency
    of the service: the Levenshtein distance between two strings, counted in
    code units.  It is given by its recurrence. *)

Module levenshtein.

Fixpoint get (a : string) : string -> nat :=
  match a with
  | EmptyString => fun b => String.length b
  | String x a' =>
      fix get_row (b : string) : nat :=
        match b with
        | EmptyString => String.length a
        | String y b' =>
            Nat.min (get a' b' + (if Ascii.eqb x y then 0 else 1))
                    (Nat.min (get_row b' + 1) (get a' b + 1))
        end
  end.

End levenshtein.

(** ** The similarity scorer

    The body of [calculateSimilarity] sits in a [try] whose [catch] returns
    0; on two strings nothing in it throws, so the handler is not part of
    the model. *)

Definition Qnat (n : nat) : Q := inject_Z (Z.of_nat n).

(** Common-prefix loop of [calculateSimilarity]: counts positions
    [i < min(len)] until the first one where the lower-cased characters
    differ. *)
Fixpoint prefixLength (query target : string) : nat :=
  match query, target with
  | String q query', String t target' =>
      if Ascii.eqb (JS.lower_char q) (JS.lower_char t)
      then S (prefixLength query' target')
      else 0
  | _, _ => 0
  end.

Definition calculateSimilarity (query target : string) : Q :=
  if query =? target then 1
  else
    let maxLength := Nat.max (String.length query) (String.length target) in
    if (maxLength =? 0)%nat then 1
    else
      let distance := levenshtein.get query target in
      let similarity := 1 - Qnat distance / Qnat maxLength in
      let lengthRatio :=
        Qnat (Nat.min (String.length query) (String.length target))
        / Qnat (Nat.max (String.length query) (String.length target)) in
      let lengthBonus := lengthRatio * (1 # 10) in
      let prefixBonus :=
        (Qnat (prefixLength query target)
         / Qnat (Nat.max (String.length query) (String.length target)))
        * (2 # 10) in
      Qmin 1 (similarity + lengthBonus + prefixBonus).

(** ** Data model *)

(** A row as the store returns it: the columns of [postal_codes] that the
    service reads, and [country_code] from the join with [countries]. *)
Record PostalRecord : Type := {
  country_code : string;
  postal_code : string;
  place_name : option string;
  admin_name1 : option string;
  admin_code1 : option string;
  admin_name2 : option string;
  admin_code2 : option string;
  admin_name3 : option string;
  admin_code3 : option string;
  latitude : option Q;
  longitude : option Q;
  accuracy : option Z
}.

(** The row object inside the service: the same columns, and the property
    [similarity_score], which is absent ([None]) until [findFuzzyMatches]
    assigns it. *)
Record Candidate : Type := {
  record :> PostalRecord;
  similarity_score : option Q
}.

Definition fromStore (r : PostalRecord) : Candidate :=
  {| record := r; similarity_score := None |}.

Definition setScore (r : Candidate) (s : Q) : Candidate :=
  {| record := record r; similarity_score := Some s |}.

(** ** The store and the effects of a request *)

Inductive StoreCall : Type :=
| FindExact (countryCode postalCode : string)
| FindFuzzy (countryCode postalCode : string)
| FindByPlace (countryCode placeName : string).

Inductive Outcome (A : Type) : Type :=
| Resolved (a : A)
| Rejected (reason : string).
Arguments Resolved {A} a.
Arguments Rejected {A} reason.

Record Statements : Type := {
  findExact : string -> string -> Outcome (list PostalRecord);
  findFuzzy : string -> string -> Outcome (list PostalRecord);
  findByPlace : string -> string -> Outcome (list PostalRecord)
}.

Definition Trace : Type := list StoreCall.

(** A computation of the service: it extends the trace of store calls and
    either resolves or throws. *)
Definition M (A : Type) : Type := Trace -> Outcome A * Trace.

Definition ret {A} (a : A) : M A := fun tr => (Resolved a, tr).

Definition throw {A} (reason : string) : M A := fun tr => (Rejected reason, tr).

Definition bind {A B} (m : M A) (f : A -> M B) : M B :=
  fun tr =>
    match m tr with
    | (Resolved a, tr') => f a tr'
    | (Rejected e, tr') => (Rejected e, tr')
    end.

(** [try { m } catch (error) { handler }] *)
Definition try_catch {A} (m : M A) (handler : string -> M A) : M A :=
  fun tr =>
    match m tr with
    | (Resolved a, tr') => (Resolved a, tr')
    | (Rejected e, tr') => handler e tr'
    end.

(** [await this.statements.f(...)]: the call is recorded, then its outcome
    is delivered. *)
Definition await_call {A} (c : StoreCall) (out : Outcome A) : M A :=
  fun tr => (out, tr ++ [c]).

Declare Scope svc_scope.
Delimit Scope svc_scope with svc.
Notation "x <- m ;; k" := (bind m (fun x => k))
  (at level 61, m at next level, right associativity) : svc_scope.
Local Open Scope svc_scope.

(** ** Numbers *)

Definition Qltb (x y : Q) : bool := negb (Qle_bool y x).

(** [v || 0] on the nullable accuracy. *)
Definition orZero (v : option Z) : Z :=
  match v with
  | Some n => n
  | None => 0%Z
  end.

(** [a !== b] on the nullable accuracy. *)
Definition strictNe (a b : option Z) : bool :=
  match a, b with
  | Some x, Some y => negb (x =? y)%Z
  | None, None => false
  | _, _ => true
  end.

(** ** Sorting

    [Array.prototype.sort] is stable.  It is modelled by insertion: an
    element goes in front of the first element it does not have to follow,
    that is, the first [y] with [cmp x y <= 0]. *)
Section Sort.
Context {A : Type} (cmp : A -> A -> Q).

Fixpoint insert (x : A) (l : list A) : list A :=
  match l with
  | [] => [x]
  | y :: l' => if Qle_bool (cmp x y) 0 then x :: l else y :: insert x l'
  end.

Definition sort (l : list A) : list A := fold_right insert [] l.
End Sort.

(** ** Results handed to the caller *)

Module Formatted.
Record t : Type := {
  country_code : string;
  postal_code : string;
  place_name : option string;
  admin_name1 : option string;
  admin_code1 : option string;
  admin_name2 : option string;
  admin_code2 : option string;
  admin_name3 : option string;
  admin_code3 : option string;
  latitude : option Q;
  longitude : option Q;
  accuracy : option Z;
  similarity_score : Q;
  fullAddress : string
}.
End Formatted.

Module MatchType.
Inductive t : Type := exact | fuzzy | none.
End MatchType.

Record Query : Type := {
  country : string;
  postalCode : string
}.

Record SearchResult : Type := {
  success : bool;
  error : option string;
  matchType : option MatchType.t;
  query : option Query;
  results : list Formatted.t
}.

(** ** Address composition *)

Definition optEqb (a b : option string) : bool :=
  match a, b with
  | Some x, Some y => x =? y
  | None, None => true
  | _, _ => false
  end.

Fixpoint findIndex {A} (p : A -> bool) (l : list A) : option nat :=
  match l with
  | [] => None
  | x :: l' => if p x then Some 0%nat else option_map S (findIndex p l')
  end.

(** [array.filter((part, index, array) => keep index part)] *)
Definition filterIndexed {A} (keep : nat -> A -> bool) (array : list A) : list A :=
  map snd (filter (fun ip => keep (fst ip) (snd ip))
                  (combine (seq 0 (List.length array)) array)).

(** [`${region} ${result.postal_code}`] for the countries that print the
    region code (or, failing that, the region name) before the code. *)
Definition regionLine (result : Candidate) : list string :=
  if JS.truthy (admin_code1 result)
  then [(JS.interp (admin_code1 result) ++ " " ++ postal_code result)%string]
  else if JS.truthy (admin_name1 result)
  then [(JS.interp (admin_name1 result) ++ " " ++ postal_code result)%string]
  else [].

(** [if (v && v !== result.place_name) parts.push(v)] *)
Definition unlessPlace (result : Candidate) (v : option string) : list string :=
  if JS.truthy v && negb (optEqb v (place_name result))
  then [JS.interp v]
  else [].

Definition constructFullAddress (result : Candidate) : string :=
  let country := country_code result in
  let parts0 :=
    if JS.truthy (place_name result) then [JS.interp (place_name result)] else [] in
  let parts :=
    if country =? "US" then
      parts0
      ++ (if JS.truthy (admin_name2 result)
          then
            if negb (JS.truthy (place_name result))
               || negb (JS.includes
                          (JS.toLowerCase (JS.interp (admin_name2 result)))
                          (JS.toLowerCase (JS.interp (place_name result))))
            then [JS.interp (admin_name2 result)]
            else []
          else [])
      ++ regionLine result
    else if country =? "CA" then
      parts0 ++ regionLine result
    else if (country =? "GB") || (country =? "UK") then
      parts0
      ++ unlessPlace result (admin_name2 result)
      ++ unlessPlace result (admin_name1 result)
      ++ [postal_code result]
    else if (country =? "DE") || (country =? "FR")
            || (country =? "IT") || (country =? "ES") then
      (if JS.truthy (place_name result)
       then removelast parts0
            ++ [(postal_code result ++ " " ++ JS.interp (place_name result))%string]
       else parts0)
      ++ unlessPlace result (admin_name1 result)
    else if country =? "AU" then
      parts0 ++ regionLine result
    else
      parts0
      ++ unlessPlace result (admin_name2 result)
      ++ unlessPlace result (admin_name1 result)
      ++ (if negb (postal_code result =? "") then [postal_code result] else [])
  in
  let trimmed :=
    map JS.trim
        (filter (fun part =>
                   negb (part =? "")
                   && (0 <? String.length (JS.trim part))%nat)
                parts) in
  let cleanParts :=
    filterIndexed
      (fun index part =>
         match findIndex
                 (fun p => JS.toLowerCase p =? JS.toLowerCase part) trimmed with
         | Some i => (i =? index)%nat
         | None => false
         end)
      trimmed in
  if (0 <? List.length cleanParts)%nat
  then JS.join ", " cleanParts
  else if negb (postal_code result =? "") then postal_code result
       else "Address not available".

(** The two stages of [constructFullAddress] on their own: [parts], as the
    branch of the record's country has filled it, and [cleanParts], the
    value of
    [parts.filter(part => part && part.trim().length > 0)
          .map(part => part.trim())
          .filter((part, index, array) =>
             array.findIndex(p => p.toLowerCase() === part.toLowerCase())
             === index)]. *)
Definition addressParts (result : Candidate) : list string :=
  let country := country_code result in
  let parts0 :=
    if JS.truthy (place_name result) then [JS.interp (place_name result)] else [] in
  if country =? "US" then
    parts0
    ++ (if JS.truthy (admin_name2 result)
        then
          if negb (JS.truthy (place_name result))
             || negb (JS.includes
                        (JS.toLowerCase (JS.interp (admin_name2 result)))
                        (JS.toLowerCase (JS.interp (place_name result))))
          then [JS.interp (admin_name2 result)]
          else []
        else [])
    ++ regionLine result
  else if country =? "CA" then
    parts0 ++ regionLine result
  else if (country =? "GB") || (country =? "UK") then
    parts0
    ++ unlessPlace result (admin_name2 result)
    ++ unlessPlace result (admin_name1 result)
    ++ [postal_code result]
  else if (country =? "DE") || (country =? "FR")
          || (country =? "IT") || (country =? "ES") then
    (if JS.truthy (place_name result)
     then removelast parts0
          ++ [(postal_code result ++ " " ++ JS.interp (place_name result))%string]
     else parts0)
    ++ unlessPlace result (admin_name1 result)
  else if country =? "AU" then
    parts0 ++ regionLine result
  else
    parts0
    ++ unlessPlace result (admin_name2 result)
    ++ unlessPlace result (admin_name1 result)
    ++ (if negb (postal_code result =? "") then [postal_code result] else []).

Definition cleanParts (parts : list string) : list string :=
  let trimmed :=
    map JS.trim
        (filter (fun part =>
                   negb (part =? "")
                   && (0 <? String.length (JS.trim part))%nat)
                parts) in
  filterIndexed
    (fun index part =>
       match findIndex
               (fun p => JS.toLowerCase p =? JS.toLowerCase part) trimmed with
       | Some i => (i =? index)%nat
       | None => false
       end)
    trimmed.

(** The string holds 7-bit characters only. *)
Definition isAscii (s : string) : bool :=
  forallb (fun c => (nat_of_ascii c <? 128)%nat) (list_ascii_of_string s).

Definition isAsciiOr (v : option string) : bool :=
  match v with
  | Some s => isAscii s
  | None => true
  end.

(** The fields that [constructFullAddress] reads hold 7-bit characters
    only; on such text [trim] and [toLowerCase] act on the blanks and letters
    of ASCII alone. *)
Definition plainText (result : Candidate) : Prop :=
  isAscii (country_code result) = true
  /\ isAscii (postal_code result) = true
  /\ isAsciiOr (place_name result) = true
  /\ isAsciiOr (admin_name1 result) = true
  /\ isAsciiOr (admin_code1 result) = true
  /\ isAsciiOr (admin_name2 result) = true.

(** [result.similarity_score || 1.0]: a missing score and a score of zero
    are both replaced. *)
Definition scoreOrOne (v : option Q) : Q :=
  match v with
  | Some s => if Qeq_bool s 0 then 1 else s
  | None => 1
  end.

Definition formatResults (results : list Candidate) : list Formatted.t :=
  map (fun result : Candidate =>
         {| Formatted.country_code := country_code result;
            Formatted.postal_code := postal_code result;
            Formatted.place_name := place_name result;
            Formatted.admin_name1 := admin_name1 result;
            Formatted.admin_code1 := admin_code1 result;
            Formatted.admin_name2 := admin_name2 result;
            Formatted.admin_code2 := admin_code2 result;
            Formatted.admin_name3 := admin_name3 result;
            Formatted.admin_code3 := admin_code3 result;
            Formatted.latitude := latitude result;
            Formatted.longitude := longitude result;
            Formatted.accuracy := accuracy result;
            Formatted.similarity_score := scoreOrOne (similarity_score result);
            Formatted.fullAddress := constructFullAddress result |})
      results.

(** ** The service *)

(** [this.maxResults] *)
Definition maxResults : nat := 20.

(** [Math.max(2, Math.floor(postalCode.length * 0.6))] *)
Definition minLengthOf (postalCode : string) : nat :=
  Nat.max 2 (String.length postalCode * 6 / 10).

(** The comparator handed to [sort] in [findFuzzyMatches].  A missing score
    makes the first test false, as a comparison with [NaN] is. *)
Definition scoresApart (a b : Candidate) : option Q :=
  match similarity_score a, similarity_score b with
  | Some sa, Some sb =>
      if Qltb (1 # 100) (Qabs (sa - sb)) then Some (sb - sa) else None
  | _, _ => None
  end.

Definition compareCandidates (a b : Candidate) : Q :=
  match scoresApart a b with
  | Some d => d
  | None =>
      if strictNe (accuracy a) (accuracy b)
      then inject_Z (orZero (accuracy b) - orZero (accuracy a))
      else inject_Z (JS.localeCompare (postal_code a) (postal_code b))
  end.

(** [`${result.country_code}:${result.postal_code}:${result.place_name}`] *)
Definition recordKey (result : Candidate) : string :=
  (country_code result ++ ":" ++ postal_code result ++ ":"
   ++ JS.interp (place_name result))%string.

(** State of the aggregation loop: [allResults] and [seenRecords]. *)
Definition Gathered : Type := (list Candidate * list string)%type.

(** Body of the inner loop of [findFuzzyMatches], for one row. *)
Definition absorb (postalCode : string) (state : Gathered) (result : Candidate)
  : Gathered :=
  let '(allResults, seenRecords) := state in
  let key := recordKey result in
  if existsb (String.eqb key) seenRecords then state
  else
    let seenRecords := key :: seenRecords in
    let similarity := calculateSimilarity postalCode (postal_code result) in
    let result := setScore result similarity in
    if Qle_bool (5 # 10) similarity
    then (allResults ++ [result], seenRecords)
    else (allResults, seenRecords).

Section Service.

Variable statements : Statements.

(** A store call whose rows become the row objects of the request. *)
Definition awaitRows (c : StoreCall) (out : Outcome (list PostalRecord))
  : M (list Candidate) :=
  rows <- await_call c out ;; ret (map fromStore rows).

Definition findExactMatches (country postalCode : string) : M (list Candidate) :=
  try_catch
    (awaitRows (FindExact country postalCode)
               (findExact statements country postalCode))
    (fun _ => ret []).

Definition fuzzyPostalCodeSearch (country postalCode : string)
  : M (list Candidate) :=
  try_catch
    (awaitRows (FindFuzzy country postalCode)
               (findFuzzy statements country postalCode))
    (fun _ => ret []).

(** The loop [for (len = postalCode.length - 1; len >= minLength; len--)].
    [k] counts the iterations that remain, so [len = minLength + k - 1]. *)
Fixpoint shrink (country postalCode : string) (minLength k : nat)
         (results : list Candidate) : M (list Candidate) :=
  match k with
  | O => ret results
  | S k' =>
      let len := (minLength + k')%nat in
      let prefix := JS.prefix len postalCode in
      prefixResults <- awaitRows (FindFuzzy country prefix)
                                 (findFuzzy statements country prefix) ;;
      let results := results ++ prefixResults in
      if (maxResults <=? List.length results)%nat
      then ret results
      else shrink country postalCode minLength k' results
  end.

Definition partialPostalCodeSearch (country postalCode : string)
  : M (list Candidate) :=
  try_catch
    (let minLength := minLengthOf postalCode in
     shrink country postalCode minLength
            (String.length postalCode - minLength) [])
    (fun _ => ret []).

Definition placeNameSearch (country postalCode : string) : M (list Candidate) :=
  try_catch
    (awaitRows (FindByPlace country postalCode)
               (findByPlace statements country postalCode))
    (fun _ => ret []).

(** The outer loop of [findFuzzyMatches]: each strategy is awaited in
    turn and its rows are absorbed. *)
Fixpoint runStrategies (postalCode : string)
         (strategies : list (M (list Candidate))) (state : Gathered)
  : M Gathered :=
  match strategies with
  | [] => ret state
  | strategy :: rest =>
      results <- strategy ;;
      runStrategies postalCode rest (fold_left (absorb postalCode) results state)
  end.

Definition findFuzzyMatches (country postalCode : string) : M (list Candidate) :=
  try_catch
    (let strategies :=
       [ fuzzyPostalCodeSearch country postalCode;
         partialPostalCodeSearch country postalCode;
         placeNameSearch country postalCode ] in
     state <- runStrategies postalCode strategies ([], []) ;;
     ret (firstn maxResults (sort compareCandidates (fst state))))
    (fun _ => ret []).

(** [v.trim()] on an argument that may be missing: a missing receiver
    throws. *)
Definition trimOf (v : option string) : M string :=
  match v with
  | Some s => ret (JS.trim s)
  | None => throw "TypeError"
  end.

Definition searchPostalCode (country postalCode : option string) (fuzzy : bool)
  : M SearchResult :=
  try_catch
    (if negb (JS.truthy country) || negb (JS.truthy postalCode)
     then ret {| success := false;
                 error := Some "Country and postal code are required";
                 matchType := None;
                 query := None;
                 results := [] |}
     else
       trimmedCountry <- trimOf country ;;
       let normalizedCountry := JS.toUpperCase trimmedCountry in
       normalizedPostalCode <- trimOf postalCode ;;
       exactResults <- findExactMatches normalizedCountry normalizedPostalCode ;;
       if (0 <? List.length exactResults)%nat
       then ret {| success := true;
                   error := None;
                   matchType := Some MatchType.exact;
                   query := Some {| country := normalizedCountry;
                                    postalCode := normalizedPostalCode |};
                   results := formatResults exactResults |}
       else
         let noMatch :=
           ret {| success := true;
                  error := None;
                  matchType := Some MatchType.none;
                  query := Some {| country := normalizedCountry;
                                   postalCode := normalizedPostalCode |};
                  results := [] |} in
         if fuzzy
         then
           fuzzyResults <- findFuzzyMatches normalizedCountry normalizedPostalCode ;;
           if (0 <? List.length fuzzyResults)%nat
           then ret {| success := true;
                       error := None;
                       matchType := Some MatchType.fuzzy;
                       query := Some {| country := normalizedCountry;
                                        postalCode := normalizedPostalCode |};
                       results := formatResults fuzzyResults |}
           else noMatch
         else noMatch)
    (fun _ => ret {| success := false;
                     error := Some "Internal search error";
                     matchType := None;
                     query := None;
                     results := [] |}).

End Service.

(** ** The prefix-shrinking strategy, as the design describes it

    The query is cut from the right: its prefixes of length [n - 1], [n - 2],
    ... down to [max(2, floor(0.6 n))] are sent to the fuzzy-pattern query in
    that order; the rows are accumulated and the strategy stops after the
    first query that brings the total to [maxResults] or more.  A rejected
    query ends the strategy. *)

Module Design.

Definition floorLength (n : nat) : nat := Nat.max 2 (6 * n / 10).

(** The lengths [n - 1], ..., [floorLength n], longest first. *)
Definition shrinkLengths (n : nat) : list nat :=
  rev (seq (floorLength n) (n - floorLength n)).

(** A strategy fails soft: a rejected query counts as no rows. *)
Definition softRows (out : Outcome (list PostalRecord)) : list Candidate :=
  match out with
  | Resolved rows => map fromStore rows
  | Rejected _ => []
  end.

Section Shrinking.
Variable statements : Statements.
Variables country postalCode : string.

(** The store calls made for the lengths [lens], when [count] rows are
    held already. *)
Fixpoint shrinkCalls (lens : list nat) (count : nat) : Trace :=
  match lens with
  | [] => []
  | len :: rest =>
      FindFuzzy country (JS.prefix len postalCode)
      :: match findFuzzy statements country (JS.prefix len postalCode) with
         | Rejected _ => []
         | Resolved rows =>
             if (maxResults <=? count + List.length rows)%nat then []
             else shrinkCalls rest (count + List.length rows)
         end
  end.

(** The rows the strategy hands back: what was accumulated when it
    stopped, or nothing when a query was rejected. *)
Fixpoint shrinkRows (lens : list nat) (held : list Candidate)
  : list Candidate :=
  match lens with
  | [] => held
  | len :: rest =>
      match findFuzzy statements country (JS.prefix len postalCode) with
      | Rejected _ => []
      | Resolved rows =>
          let held := held ++ map fromStore rows in
          if (maxResults <=? List.length held)%nat then held
          else shrinkRows rest held
      end
  end.

(** The store calls of the fuzzy stage, in order: the fuzzy-pattern
    query, the prefix-shrinking queries, the place-name query. *)
Definition fuzzyCalls : Trace :=
  [FindFuzzy country postalCode]
  ++ shrinkCalls (shrinkLengths (String.length postalCode)) 0
  ++ [FindByPlace country postalCode].

(** The candidates the three strategies surface, in order of arrival. *)
Definition candidates : list Candidate :=
  softRows (findFuzzy statements country postalCode)
  ++ shrinkRows (shrinkLengths (String.length postalCode)) []
  ++ softRows (findByPlace statements country postalCode).
End Shrinking.

End Design.

(** ** Sample data *)

Module Sample.

Definition row (cc pc place region code : string) (acc : option Z)
  : PostalRecord :=
  {| country_code := cc; postal_code := pc; place_name := Some place;
     admin_name1 := Some region; admin_code1 := Some code;
     admin_name2 := None; admin_code2 := None;
     admin_name3 := None; admin_code3 := None;
     latitude := None; longitude := None; accuracy := acc |}.

Definition table : list PostalRecord :=
  [ row "US" "90210" "Beverly Hills" "California" "CA" (Some 4%Z);
    row "US" "90211" "Beverly Hills" "California" "CA" (Some 4%Z);
    row "US" "90212" "Beverly Hills" "California" "CA" (Some 4%Z);
    row "US" "10001" "New York" "New York" "NY" (Some 4%Z) ].

Definition nameHas (v : option string) (text : string) : bool :=
  match v with
  | Some s => JS.includes s text
  | None => false
  end.

(** A store over a table, answering the three queries of
    [database/schema.js] by their WHERE clauses and LIMITs; the table is
    listed in the order the queries ask for. *)
Definition tableStore (table : list PostalRecord) : Statements :=
  {| findExact := fun cc pc =>
       Resolved (firstn 10
         (filter (fun r => (country_code r =? cc) && (postal_code r =? pc))
                 table));
     findFuzzy := fun cc pc =>
       Resolved (firstn 20
         (filter (fun r => (country_code r =? cc)
                           && (JS.includes (postal_code r) pc
                               || String.prefix pc (postal_code r)
                               || String.prefix (postal_code r) pc))
                 table));
     findByPlace := fun cc text =>
       Resolved (firstn 15
         (filter (fun r => (country_code r =? cc)
                           && (nameHas (place_name r) text
                               || nameHas (admin_name1 r) text
                               || nameHas (admin_name2 r) text))
                 table)) |}.

Definition store : Statements := tableStore table.

(** Two rows of equal length whose codes both contain ["10"]: the first
    has accuracy 0, the second has none. *)
Definition tiedTable : list PostalRecord :=
  [ row "IS" "102" "Reykjavik" "Hofudborgarsvaedi" "1" (Some 0%Z);
    row "IS" "101" "Reykjavik" "Hofudborgarsvaedi" "1" None ].

Definition tiedStore : Statements := tableStore tiedTable.

(** A store that is out of order: every query is rejected. *)
Definition downStore : Statements :=
  {| findExact := fun _ _ => Rejected "IO Error";
     findFuzzy := fun _ _ => Rejected "IO Error";
     findByPlace := fun _ _ => Rejected "IO Error" |}.

End Sample.

(** ** Batch lookups *)

(** A value carried by a JSON body.  [Compound] stands for an array or an
    object. *)
Module Json.
Inductive t : Type :=
| Null
| Boolean (b : bool)
| Number (n : Q)
| Text (s : string)
| Compound.

(** Truthiness of a property value; [None] is a property that is absent. *)
Definition truthy (v : option t) : bool :=
  match v with
  | None => false
  | Some Null => false
  | Some (Boolean b) => b
  | Some (Number n) => negb (Qeq_bool n 0)
  | Some (Text s) => negb (s =? "")
  | Some Compound => true
  end.

(** A string, or an absent property, as a property value. *)
Definition ofText (v : option string) : option t := option_map Text v.

(** [typeof v === 'string'] *)
Definition isText (v : option t) : bool :=
  match v with
  | Some (Text _) => true
  | _ => false
  end.
End Json.

(** A non-null element of the array handed to [searchMultiple], by the
    three properties the service reads from it.  An element that is neither
    [null] nor an object reads as an object without these properties.  In
    the array, [None] stands for the element [null]. *)
Module Search.
Record t : Type := {
  country : option Json.t;
  postalCode : option Json.t;
  fuzzy : option Json.t
}.
End Search.

(** [search.fuzzy !== false] *)
Definition fuzzyUnlessFalse (search : Search.t) : bool :=
  match Search.fuzzy search with
  | Some (Json.Boolean false) => false
  | _ => true
  end.

(** The object [{ query: search, ...result }]: the result's own [query],
    when it has one, replaces the search. *)
Module BatchEntry.
Inductive query_t : Type :=
| Raw (search : Search.t)
| Normalized (q : Query).

Record t : Type := {
  query : query_t;
  success : bool;
  error : option string;
  matchType : option MatchType.t;
  results : list Formatted.t
}.
End BatchEntry.

Definition batchEntry (search : Search.t) (result : SearchResult) : BatchEntry.t :=
  {| BatchEntry.query :=
       match query result with
       | Some q => BatchEntry.Normalized q
       | None => BatchEntry.Raw search
       end;
     BatchEntry.success := success result;
     BatchEntry.error := error result;
     BatchEntry.matchType := matchType result;
     BatchEntry.results := results result |}.

(** ** Suggestions *)

Module Suggestion.
Record t : Type := {
  postal_code : string;
  place_name : option string;
  admin_name1 : option string
}.
End Suggestion.

Module SuggestResult.
Record query_t : Type := {
  country : string;
  partial : string
}.

Record t : Type := {
  success : bool;
  error : option string;
  query : option query_t;
  suggestions : list Suggestion.t
}.
End SuggestResult.

(** [`${suggestion.postal_code}:${suggestion.place_name}`] *)
Definition suggestionKey (suggestion : Candidate) : string :=
  (postal_code suggestion ++ ":" ++ JS.interp (place_name suggestion))%string.

(** State of the loop of [suggest]: [uniqueSuggestions] and [seen]. *)
Definition Collected : Type := (list Suggestion.t * list string)%type.

(** Body of the loop of [suggest], for one row. *)
Definition collect (limit : Z) (state : Collected) (suggestion : Candidate)
  : Collected :=
  let '(uniqueSuggestions, seen) := state in
  let key := suggestionKey suggestion in
  if negb (existsb (String.eqb key) seen)
     && (Z.of_nat (List.length uniqueSuggestions) <? limit)%Z
  then (uniqueSuggestions
          ++ [{| Suggestion.postal_code := postal_code suggestion;
                 Suggestion.place_name := place_name suggestion;
                 Suggestion.admin_name1 := admin_name1 suggestion |}],
        key :: seen)
  else state.

(** [v.length] where [v] has passed the truthiness test. *)
Definition lengthOf (v : option string) : nat :=
  match v with
  | Some s => String.length s
  | None => 0
  end.

(** ** Health *)

(** What [database.getStats()] resolves with; the service reads
    [total_records]. *)
Record DatabaseStats : Type := {
  total_records : Z;
  countries : Z
}.

(** The object [healthCheck] resolves with.  [healthy] is
    [stats && stats.total_records > 0]: [null] when there are no stats. *)
Record Health : Type := {
  healthy : option bool;
  stats : option DatabaseStats
}.

(** [getStats]: a rejected query is logged and becomes [null]. *)
Definition getStats (database : Outcome DatabaseStats) : option DatabaseStats :=
  match database with
  | Resolved stats => Some stats
  | Rejected _ => None
  end.

Definition healthCheck (database : Outcome DatabaseStats) : Health :=
  let stats := getStats database in
  {| healthy :=
       match stats with
       | Some s => Some (0 <? total_records s)%Z
       | None => None
       end;
     stats := stats |}.

(** ** The routes of [server.js]

    A query parameter is an optional string.  A handler answers with a
    status code and a body. *)

Inductive LookupBody : Type :=
| LookupMissing
| LookupAnswer (result : SearchResult)
| LookupFailed.

Inductive ValidateBody : Type :=
| ValidateMissing
| ValidateAnswer (isValid : bool).


(** [fuzzy !== 'false' && fuzzy !== '0'] *)
Definition enableFuzzy (fuzzy : option string) : bool :=
  negb (optEqb fuzzy (Some "false")) && negb (optEqb fuzzy (Some "0")).

(** [GET /health], with the service (when it is initialised) standing for
    the outcome of its statistics query. *)
Definition healthRoute (searchService : option (Outcome DatabaseStats))
  : nat * option Health :=
  match searchService with
  | None => (503%nat, None)
  | Some database =>
      let health := healthCheck database in
      ((match healthy health with
        | Some true => 200
        | _ => 503
        end)%nat,
       Some health)
  end.

Section Endpoints.

Variable statements : Statements.

(** [v.trim()] on a property value: only a string has the method. *)
Definition trimOfValue (v : option Json.t) : M string :=
  match v with
  | Some (Json.Text s) => ret (JS.trim s)
  | _ => throw "TypeError"
  end.

(** [searchPostalCode] on arguments of any type, as [searchMultiple] hands
    them over from the elements of a request body. *)
Definition searchPostalCodeValue (country postalCode : option Json.t) (fuzzy : bool)
  : M SearchResult :=
  try_catch
    (if negb (Json.truthy country) || negb (Json.truthy postalCode)
     then ret {| success := false;
                 error := Some "Country and postal code are required";
                 matchType := None;
                 query := None;
                 results := [] |}
     else
       trimmedCountry <- trimOfValue country ;;
       let normalizedCountry := JS.toUpperCase trimmedCountry in
       normalizedPostalCode <- trimOfValue postalCode ;;
       exactResults <- findExactMatches statements normalizedCountry
                                        normalizedPostalCode ;;
       if (0 <? List.length exactResults)%nat
       then ret {| success := true;
                   error := None;
                   matchType := Some MatchType.exact;
                   query := Some {| country := normalizedCountry;
                                    postalCode := normalizedPostalCode |};
                   results := formatResults exactResults |}
       else
         let noMatch :=
           ret {| success := true;
                  error := None;
                  matchType := Some MatchType.none;
                  query := Some {| country := normalizedCountry;
                                   postalCode := normalizedPostalCode |};
                  results := [] |} in
         if fuzzy
         then
           fuzzyResults <- findFuzzyMatches statements normalizedCountry
                                            normalizedPostalCode ;;
           if (0 <? List.length fuzzyResults)%nat
           then ret {| success := true;
                       error := None;
                       matchType := Some MatchType.fuzzy;
                       query := Some {| country := normalizedCountry;
                                        postalCode := normalizedPostalCode |};
                       results := formatResults fuzzyResults |}
           else noMatch
         else noMatch)
    (fun _ => ret {| success := false;
                     error := Some "Internal search error";
                     matchType := None;
                     query := None;
                     results := [] |}).

(** The loop of [searchMultiple].  Reading [search.country] from the
    element [null] throws, outside any [try]. *)
Fixpoint searchMultipleFrom (searches : list (option Search.t))
         (results : list BatchEntry.t) : M (list BatchEntry.t) :=
  match searches with
  | [] => ret results
  | None :: _ => throw "TypeError"
  | Some search :: rest =>
      result <- searchPostalCodeValue
                  (Search.country search) (Search.postalCode search)
                  (fuzzyUnlessFalse search) ;;
      searchMultipleFrom rest (results ++ [batchEntry search result])
  end.

Definition searchMultiple (searches : list (option Search.t))
  : M (list BatchEntry.t) :=
  searchMultipleFrom searches [].

Definition suggest (country partialPostalCode : option string) (limit : option Z)
  : M SuggestResult.t :=
  let limit := match limit with Some n => n | None => 10%Z end in
  try_catch
    (if negb (JS.truthy country) || negb (JS.truthy partialPostalCode)
        || (lengthOf partialPostalCode <? 2)%nat
     then ret {| SuggestResult.success := false;
                 SuggestResult.error :=
                   Some "Country and at least 2 characters of postal code required";
                 SuggestResult.query := None;
                 SuggestResult.suggestions := [] |}
     else
       trimmedCountry <- trimOf country ;;
       let normalizedCountry := JS.toUpperCase trimmedCountry in
       normalizedPartial <- trimOf partialPostalCode ;;
       suggestions <- awaitRows (FindFuzzy normalizedCountry normalizedPartial)
                                (findFuzzy statements normalizedCountry
                                           normalizedPartial) ;;
       let uniqueSuggestions :=
         fst (fold_left (collect limit) suggestions ([], [])) in
       ret {| SuggestResult.success := true;
              SuggestResult.error := None;
              SuggestResult.query :=
                Some {| SuggestResult.country := normalizedCountry;
                        SuggestResult.partial := normalizedPartial |};
              SuggestResult.suggestions := uniqueSuggestions |})
    (fun _ => ret {| SuggestResult.success := false;
                     SuggestResult.error := Some "Internal suggestion error";
                     SuggestResult.query := None;
                     SuggestResult.suggestions := [] |}).

(** [GET /lookup] *)
Definition lookupRoute (country postalCode fuzzy : option string)
  : M (nat * LookupBody) :=
  try_catch
    (if negb (JS.truthy country) || negb (JS.truthy postalCode)
     then ret (400%nat, LookupMissing)
     else
       result <- searchPostalCode statements country postalCode
                                  (enableFuzzy fuzzy) ;;
       let statusCode :=
         (if success result
          then if (0 <? List.length (results result))%nat then 200 else 404
          else 500)%nat in
       ret (statusCode, LookupAnswer result))
    (fun _ => ret (500%nat, LookupFailed)).

(** [GET /validate].  The third argument of the call is the object
    [{ fuzzy: false, limit: 1 }], which the service reads as a truthy
    [fuzzy]. *)
Definition validateRoute (country postalCode : option string)
  : M (nat * ValidateBody) :=
  try_catch
    (if negb (JS.truthy country) || negb (JS.truthy postalCode)
     then ret (400%nat, ValidateMissing)
     else
       result <- searchPostalCode statements country postalCode true ;;
       let isValid :=
         success result
         && match matchType result with
            | Some MatchType.exact => true
            | _ => false
            end
         && (0 <? List.length (results result))%nat in
       ret (200%nat, ValidateAnswer isValid))
    (fun _ => ret (200%nat, ValidateAnswer false)).


End Endpoints.

(** ** Timing statistics of [scripts/test-api-performance.js] *)

Module APITester.

Record TimingStats : Type := {
  min : Z;
  max : Z;
  avg : Z;
  median : Z;
  p95 : Z;
  count : nat
}.

(** [Math.round]: the nearest integer, halves upwards. *)
Definition round (x : Q) : Z := Qfloor (x + (1 # 2)).

(** [times.reduce((a, b) => a + b, 0)] *)
Definition total (times : list Z) : Z := fold_left Z.add times 0%Z.

(** [calculateStats]; the response times are whole milliseconds, and
    [Math.floor(times.length * 0.95)] is computed on integers. *)
Definition calculateStats (times : list Z) : option TimingStats :=
  if (List.length times =? 0)%nat then None
  else
    let times := sort (fun a b => inject_Z (a - b)) times in
    Some {| min := nth 0 times 0%Z;
            max := nth (List.length times - 1) times 0%Z;
            avg := round (inject_Z (total times) / Qnat (List.length times));
            median := nth (List.length times / 2) times 0%Z;
            p95 := nth (List.length times * 95 / 100) times 0%Z;
            count := List.length times |}.

End APITester.

(** ** Predicates used in the statements *)


(** The candidate carries a score of at least 0.5. *)
Definition clearsThreshold (r : Candidate) : Prop :=
  exists s, similarity_score r = Some s /\ (5 # 10) <= s.


(** A row with the score the aggregation gives it for the query
    [postalCode]. *)
Definition scored (postalCode : string) (c : Candidate) : Candidate :=
  setScore c (calculateSimilarity postalCode (postal_code c)).

(** The aggregation state holds no two rows with one key, and has seen
    the key of every row it holds. *)
Definition keysTracked (state : Gathered) : Prop :=
  NoDup (map recordKey (fst state))
  /\ forall r, In r (fst state) -> In (recordKey r) (snd state).

(** The suggestion that [suggest] builds from a row, and the key under
    which it was recorded. *)
Definition toSuggestion (c : Candidate) : Suggestion.t :=
  {| Suggestion.postal_code := postal_code c;
     Suggestion.place_name := place_name c;
     Suggestion.admin_name1 := admin_name1 c |}.

Definition keyOfSuggestion (s : Suggestion.t) : string :=
  (Suggestion.postal_code s ++ ":" ++ JS.interp (Suggestion.place_name s))%string.

(** The arguments fail the validation of [searchPostalCode]. *)
Definition missingInput (country postalCode : option string) : Prop :=
  (country = None \/ country = Some "")
  \/ (postalCode = None \/ postalCode = Some "").

(** ** More sample data *)

Module Demo.

Definition beverlyHills : PostalRecord :=
  Sample.row "US" "90210" "Beverly Hills" "California" "CA" (Some 4%Z).

(** A store that answers the fuzzy-pattern query for ["9021"] and is out
    of order for every other one. *)
Definition flakyStore : Statements :=
  {| findExact := fun _ _ => Resolved [];
     findFuzzy := fun _ pc =>
       if (pc =? "9021")%string then Resolved [beverlyHills]
       else Rejected "IO Error";
     findByPlace := fun _ _ => Resolved [] |}.

(** A row that carries a postal code and nothing else. *)
Definition bareRecord : PostalRecord :=
  {| country_code := "SG"; postal_code := "018956"; place_name := None;
     admin_name1 := None; admin_code1 := None;
     admin_name2 := None; admin_code2 := None;
     admin_name3 := None; admin_code3 := None;
     latitude := None; longitude := None; accuracy := None |}.




(** The batch element [{ country: 1, postalCode: "90210" }]. *)
Definition numericCountry : Search.t :=
  {| Search.country := Some (Json.Number 1);
     Search.postalCode := Some (Json.Text "90210");
     Search.fuzzy := None |}.

End Demo.

(** Case split on the emptiness test that guards a branch of the goal. *)
Ltac case_nonempty E :=
  match goal with
  | |- context [if (0 <? List.length ?l)%nat then _ else _] =>
      destruct (0 <? List.length l)%nat eqn:E
  end.

(** * Properties *)

(** ** Edit distance *)

Lemma get_empty_r (a : string) : levenshtein.get a "" = String.length a.
Proof. destruct a; reflexivity. Qed.

Lemma get_step (x y : ascii) (a b : string) :
  levenshtein.get (String x a) (String y b)
  = Nat.min (levenshtein.get a b + (if Ascii.eqb x y then 0 else 1))
            (Nat.min (levenshtein.get (String x a) b + 1)
                     (levenshtein.get a (String y b) + 1)).
Proof. reflexivity. Qed.

Lemma get_sym (a b : string) : levenshtein.get a b = levenshtein.get b a.
Proof.
  revert b. induction a as [|x a IHa]; intro b.
  - rewrite get_empty_r. reflexivity.
  - induction b as [|y b IHb].
    + reflexivity.
    + rewrite (get_step x y), (get_step y x).
      rewrite (IHa b), (IHa (String y b)), IHb, (Ascii.eqb_sym x y).
      f_equal. apply Nat.min_comm.
Qed.

Lemma get_le_max (a b : string) :
  (levenshtein.get a b <= Nat.max (String.length a) (String.length b))%nat.
Proof.
  revert b. induction a as [|x a IHa]; intro b.
  - simpl. lia.
  - destruct b as [|y b].
    + simpl. lia.
    + rewrite get_step. specialize (IHa b).
      cbn [String.length].
      destruct (Ascii.eqb x y); lia.
Qed.

(** ** The common prefix *)

Lemma prefixLength_sym (a b : string) : prefixLength a b = prefixLength b a.
Proof.
  revert b. induction a as [|x a IHa]; intros [|y b]; simpl; try reflexivity.
  rewrite (Ascii.eqb_sym (JS.lower_char y)).
  destruct (Ascii.eqb (JS.lower_char x) (JS.lower_char y)); [|reflexivity].
  now rewrite IHa.
Qed.

(** ** The scorer *)

Lemma calculateSimilarity_swap (a b : string) :
  calculateSimilarity a b = calculateSimilarity b a.
Proof.
  unfold calculateSimilarity.
  rewrite (String.eqb_sym a b), (get_sym a b), (prefixLength_sym a b).
  rewrite (Nat.max_comm (String.length a)), (Nat.min_comm (String.length a)).
  reflexivity.
Qed.

Lemma Qnat_nonneg (n : nat) : 0 <= Qnat n.
Proof. unfold Qnat, Qle; simpl. lia. Qed.

Lemma Qnat_pos (n : nat) : (0 < n)%nat -> 0 < Qnat n.
Proof. unfold Qnat, Qlt; simpl. lia. Qed.

Lemma Qnat_le (n m : nat) : (n <= m)%nat -> Qnat n <= Qnat m.
Proof. unfold Qnat, Qle; simpl. lia. Qed.

Lemma Qnat_ratio_nonneg (n m : nat) : (0 < m)%nat -> 0 <= Qnat n / Qnat m.
Proof.
  intro Hm. apply Qle_shift_div_l.
  - now apply Qnat_pos.
  - rewrite Qmult_0_l. apply Qnat_nonneg.
Qed.

Lemma Qnat_ratio_le_1 (n m : nat) :
  (0 < m)%nat -> (n <= m)%nat -> Qnat n / Qnat m <= 1.
Proof.
  intros Hm Hnm. apply Qle_shift_div_r.
  - now apply Qnat_pos.
  - rewrite Qmult_1_l. now apply Qnat_le.
Qed.

(** C1. For every pair of strings the score lies between 0 and 1. *)
Theorem calculateSimilarity_range (query candidate : string) :
  0 <= calculateSimilarity query candidate
  /\ calculateSimilarity query candidate <= 1.
Proof.
  unfold calculateSimilarity.
  destruct (query =? candidate)%string.
  { split; discriminate. }
  destruct (Nat.eqb_spec (Nat.max (String.length query) (String.length candidate)) 0)
    as [|Hmax].
  { split; discriminate. }
  set (M := Nat.max (String.length query) (String.length candidate)) in *.
  assert (HM : (0 < M)%nat) by lia.
  split; [|apply Q.le_min_l].
  apply Q.min_glb; [discriminate|].
  pose proof (Qnat_ratio_le_1 _ _ HM (get_le_max query candidate)) as Hd.
  pose proof (Qnat_ratio_nonneg
                (Nat.min (String.length query) (String.length candidate)) M HM) as Hl.
  pose proof (Qnat_ratio_nonneg (prefixLength query candidate) M HM) as Hp.
  fold M in Hd.
  assert (H1 : 0 <= 1 - Qnat (levenshtein.get query candidate) / Qnat M).
  { unfold Qminus. rewrite <- (Qplus_opp_r (Qnat (levenshtein.get query candidate) / Qnat M)).
    apply Qplus_le_l. exact Hd. }
  assert (H2 : 0 <= Qnat (Nat.min (String.length query) (String.length candidate))
                    / Qnat M * (1 # 10)).
  { apply Qmult_le_0_compat; [exact Hl|discriminate]. }
  assert (H3 : 0 <= Qnat (prefixLength query candidate) / Qnat M * (2 # 10)).
  { apply Qmult_le_0_compat; [exact Hp|discriminate]. }
  pose proof (Qplus_le_compat _ _ _ _ (Qplus_le_compat _ _ _ _ H1 H2) H3) as H.
  exact H.
Qed.

(** C9. A string scores exactly 1 against itself. *)
Theorem calculateSimilarity_identical (s : string) : calculateSimilarity s s = 1.
Proof.
  unfold calculateSimilarity. now rewrite String.eqb_refl.
Qed.

(** C7, as the code has it. The scorer is symmetric: the common-prefix count
    compares the lower-cased characters of both strings position by
    position, so swapping query and candidate changes neither the prefix
    bonus nor the score. *)
Theorem calculateSimilarity_symmetric (a b : string) :
  prefixLength a b = prefixLength b a
  /\ calculateSimilarity a b = calculateSimilarity b a.
Proof.
  split; [apply prefixLength_sym | apply calculateSimilarity_swap].
Qed.

(** C7, refuted as stated: no two strings score differently in the two
    orders. *)
Lemma calculateSimilarity_never_asymmetric :
  ~ (exists a b : string, calculateSimilarity a b <> calculateSimilarity b a).
Proof.
  intros (a & b & Hne). apply Hne, calculateSimilarity_swap.
Qed.

(** ** Computations *)







(** ** Sorting *)

Section SortFacts.
Context {A : Type} (cmp : A -> A -> Q) (R : A -> A -> Prop).
Hypothesis before_ok : forall x y, Qle_bool (cmp x y) 0 = true -> R x y.
Hypothesis after_ok : forall x y, Qle_bool (cmp x y) 0 = false -> R y x.

Lemma insert_In (x r : A) (l : list A) :
  In r (insert cmp x l) <-> r = x \/ In r l.
Proof.
  induction l as [|y l IH]; simpl.
  - intuition.
  - destruct (Qle_bool (cmp x y) 0); simpl; [intuition|].
    rewrite IH. intuition.
Qed.

Lemma sort_In (r : A) (l : list A) : In r (sort cmp l) <-> In r l.
Proof.
  induction l as [|x l IH]; simpl; [tauto|].
  rewrite insert_In, IH. intuition.
Qed.



Lemma insert_Sorted (x : A) (l : list A) :
  Sorted R l -> Sorted R (insert cmp x l).
Proof.
  induction l as [|y l IH]; intro Hs; simpl.
  - repeat constructor.
  - destruct (Qle_bool (cmp x y) 0) eqn:E.
    + constructor; [exact Hs|]. constructor. now apply before_ok.
    + apply Sorted_inv in Hs as [Hl Hy].
      constructor; [now apply IH|].
      destruct l as [|z l]; simpl.
      * constructor. now apply after_ok.
      * destruct (Qle_bool (cmp x z) 0).
        -- constructor. now apply after_ok.
        -- constructor. now inversion Hy.
Qed.

Lemma sort_Sorted (l : list A) : Sorted R (sort cmp l).
Proof.
  induction l as [|x l IH]; simpl; [constructor|now apply insert_Sorted].
Qed.
End SortFacts.


Lemma firstn_incl {A} n (l : list A) x : In x (firstn n l) -> In x l.
Proof.
  revert l. induction n as [|n IH]; intros [|a l]; simpl; try tauto.
  intros [->|H]; auto.
Qed.


(** ** The comparator *)


Lemma Qltb_true (x y : Q) : Qltb x y = true -> x < y.
Proof.
  unfold Qltb. intro H. apply negb_true_iff in H.
  apply Qnot_le_lt. intro Hle. apply Qle_bool_iff in Hle. congruence.
Qed.

Lemma Qle_bool_false (x y : Q) : Qle_bool x y = false -> y < x.
Proof.
  intro H. apply Qnot_le_lt. intro Hle. apply Qle_bool_iff in Hle. congruence.
Qed.



(** ** Aggregation *)

Lemma absorb_clearsThreshold (postalCode : string) (state : Gathered)
      (result : Candidate) :
  Forall clearsThreshold (fst state) ->
  Forall clearsThreshold (fst (absorb postalCode state result)).
Proof.
  destruct state as [allResults seenRecords]. unfold absorb. simpl.
  intro Hall.
  destruct (existsb _ seenRecords); [exact Hall|].
  destruct (Qle_bool (5 # 10) (calculateSimilarity postalCode (postal_code result)))
    eqn:E; simpl; [|exact Hall].
  apply Forall_app. split; [exact Hall|].
  constructor; [|constructor].
  eexists. split; [reflexivity|]. now apply Qle_bool_iff.
Qed.

Lemma fold_absorb_clearsThreshold (postalCode : string)
      (results : list Candidate) (state : Gathered) :
  Forall clearsThreshold (fst state) ->
  Forall clearsThreshold (fst (fold_left (absorb postalCode) results state)).
Proof.
  revert state. induction results as [|r results IH]; intros state Hs; simpl.
  - exact Hs.
  - apply IH. now apply absorb_clearsThreshold.
Qed.


Section ServiceFacts.

Variable statements : Statements.




End ServiceFacts.

(** ** Running the strategies *)

Section Runs.

Variable statements : Statements.

Lemma soft_call_run (c : StoreCall) (out : Outcome (list PostalRecord))
      (tr : Trace) :
  try_catch (awaitRows c out) (fun _ => ret []) tr
  = (Resolved (Design.softRows out), tr ++ [c]).
Proof. destruct out; reflexivity. Qed.

Lemma findExactMatches_run (country postalCode : string) (tr : Trace) :
  findExactMatches statements country postalCode tr
  = (Resolved (Design.softRows (findExact statements country postalCode)),
     tr ++ [FindExact country postalCode]).
Proof. apply soft_call_run. Qed.

Lemma shrinkLengths_step (m k : nat) :
  rev (seq m (S k)) = (m + k)%nat :: rev (seq m k).
Proof. rewrite seq_S, rev_app_distr. reflexivity. Qed.

Lemma shrink_run (country postalCode : string) (m k : nat)
      (results : list Candidate) (tr : Trace) :
  snd (shrink statements country postalCode m k results tr)
  = tr ++ Design.shrinkCalls statements country postalCode
                             (rev (seq m k)) (List.length results)
  /\ match fst (shrink statements country postalCode m k results tr) with
     | Resolved out =>
         out = Design.shrinkRows statements country postalCode
                                 (rev (seq m k)) results
     | Rejected _ =>
         Design.shrinkRows statements country postalCode
                           (rev (seq m k)) results = []
     end.
Proof.
  revert results tr. induction k as [|k IH]; intros results tr.
  - simpl. now rewrite app_nil_r.
  - rewrite shrinkLengths_step.
    cbn [shrink Design.shrinkCalls Design.shrinkRows].
    unfold awaitRows. unfold bind, await_call, ret.
    destruct (findFuzzy statements country (JS.prefix (m + k) postalCode))
      as [rows|e]; cbv beta iota zeta.
    + rewrite length_app, length_map.
      destruct (maxResults <=? List.length results + List.length rows)%nat.
      * cbn [fst snd]. split; reflexivity.
      * specialize (IH (results ++ map fromStore rows)
                       (tr ++ [FindFuzzy country (JS.prefix (m + k) postalCode)])).
        rewrite length_app, length_map in IH.
        destruct IH as [IHt IHr]. split; [|exact IHr].
        rewrite IHt, <- app_assoc. reflexivity.
    + split; reflexivity.
Qed.

Lemma minLengthOf_floor (postalCode : string) :
  minLengthOf postalCode = Design.floorLength (String.length postalCode).
Proof. unfold minLengthOf, Design.floorLength. now rewrite Nat.mul_comm. Qed.

Lemma partialPostalCodeSearch_run (country postalCode : string) (tr : Trace) :
  partialPostalCodeSearch statements country postalCode tr
  = (Resolved (Design.shrinkRows statements country postalCode
                 (Design.shrinkLengths (String.length postalCode)) []),
     tr ++ Design.shrinkCalls statements country postalCode
             (Design.shrinkLengths (String.length postalCode)) 0).
Proof.
  unfold partialPostalCodeSearch, try_catch, Design.shrinkLengths.
  rewrite minLengthOf_floor.
  set (m := Design.floorLength (String.length postalCode)).
  destruct (shrink_run country postalCode m (String.length postalCode - m) [] tr)
    as [Ht Hr].
  destruct (shrink statements country postalCode m
                   (String.length postalCode - m) [] tr) as [[out|e] tr1];
    cbn [fst snd] in Ht, Hr; subst tr1.
  - now rewrite Hr.
  - now rewrite Hr.
Qed.

Lemma findFuzzyMatches_run (country postalCode : string) (tr : Trace) :
  findFuzzyMatches statements country postalCode tr
  = (Resolved
       (firstn maxResults
          (sort compareCandidates
             (fst (fold_left (absorb postalCode)
                             (Design.candidates statements country postalCode)
                             ([], []))))),
     tr ++ Design.fuzzyCalls statements country postalCode).
Proof.
  unfold findFuzzyMatches, try_catch, bind, runStrategies, bind.
  unfold fuzzyPostalCodeSearch, placeNameSearch.
  rewrite soft_call_run, partialPostalCodeSearch_run, soft_call_run.
  unfold ret, Design.candidates, Design.fuzzyCalls.
  rewrite !fold_left_app, <- !app_assoc. reflexivity.
Qed.

End Runs.

(** ** The orchestrator *)

Lemma truthy_Some (s : string) : s <> "" -> JS.truthy (Some s) = true.
Proof.
  intro H. unfold JS.truthy. apply negb_true_iff. now apply String.eqb_neq.
Qed.

Lemma softRows_unscored (out : Outcome (list PostalRecord)) :
  Forall (fun r : Candidate => similarity_score r = None) (Design.softRows out).
Proof.
  destruct out as [rows|e]; simpl; [|constructor].
  induction rows; simpl; constructor; auto.
Qed.

Lemma formatResults_unscored (l : list Candidate) :
  Forall (fun r : Candidate => similarity_score r = None) l ->
  Forall (fun f => Formatted.similarity_score f = 1) (formatResults l).
Proof.
  induction 1 as [|r l Hr Hl IH]; simpl; constructor; [|exact IH].
  simpl. now rewrite Hr.
Qed.

Lemma no_rows_soft (out : Outcome (list PostalRecord)) :
  out = Resolved [] \/ (exists e, out = Rejected e) -> Design.softRows out = [].
Proof. intros [-> | [e ->]]; reflexivity. Qed.

Lemma shrinkLengths_nth (m k i : nat) :
  nth_error (rev (seq m k)) i
  = if (i <? k)%nat then Some (m + k - 1 - i)%nat else None.
Proof.
  revert i. induction k as [|k IH]; intro i.
  - destruct i; reflexivity.
  - rewrite seq_S, rev_app_distr. destruct i as [|i]; simpl.
    + f_equal. lia.
    + rewrite IH. change (S i <? S k)%nat with (i <? k)%nat.
      destruct (i <? k)%nat; [f_equal; lia|reflexivity].
Qed.

Lemma nonempty_length {A} (l : list A) : l <> [] -> (0 <? List.length l)%nat = true.
Proof. destruct l; [congruence|reflexivity]. Qed.

Section Orchestrator.

Variable statements : Statements.

(** What a request that passes validation does, step by step. *)
Lemma searchPostalCode_run (c p : string) (fuzzy : bool) (tr : Trace) :
  c <> "" -> p <> "" ->
  let C := JS.toUpperCase (JS.trim c) in
  let P := JS.trim p in
  let q := Some {| country := C; postalCode := P |} in
  let exactResults := Design.softRows (findExact statements C P) in
  let fuzzyResults :=
    firstn maxResults
      (sort compareCandidates
         (fst (fold_left (absorb P) (Design.candidates statements C P) ([], []))))
  in
  searchPostalCode statements (Some c) (Some p) fuzzy tr
  = if (0 <? List.length exactResults)%nat
    then (Resolved {| success := true; error := None;
                      matchType := Some MatchType.exact; query := q;
                      results := formatResults exactResults |},
          tr ++ [FindExact C P])
    else if fuzzy
    then (Resolved
            (if (0 <? List.length fuzzyResults)%nat
             then {| success := true; error := None;
                     matchType := Some MatchType.fuzzy; query := q;
                     results := formatResults fuzzyResults |}
             else {| success := true; error := None;
                     matchType := Some MatchType.none; query := q;
                     results := [] |}),
          (tr ++ [FindExact C P]) ++ Design.fuzzyCalls statements C P)
    else (Resolved {| success := true; error := None;
                      matchType := Some MatchType.none; query := q;
                      results := [] |},
          tr ++ [FindExact C P]).
Proof.
  intros Hc Hp C P q exactResults fuzzyResults.
  unfold searchPostalCode.
  rewrite (truthy_Some c Hc), (truthy_Some p Hp). cbn [negb orb].
  unfold try_catch, trimOf. unfold bind at 1 2 3. unfold ret at 1 2.
  fold C P. rewrite findExactMatches_run. fold exactResults.
  destruct (0 <? List.length exactResults)%nat; [reflexivity|].
  destruct fuzzy; [|reflexivity].
  unfold bind. rewrite findFuzzyMatches_run. fold fuzzyResults.
  destruct (0 <? List.length fuzzyResults)%nat; reflexivity.
Qed.

(** C4. When the query passes validation and the exact query yields at
    least one row, the request answers with [matchType = exact] and those
    rows, formatted; the exact query is the only store call it makes, so no
    fuzzy strategy runs, whatever the [fuzzy] flag. *)
Theorem exact_match_short_circuits (c p : string) (fuzzy : bool) (tr : Trace)
        (rows : list PostalRecord) :
  c <> "" -> p <> "" ->
  findExact statements (JS.toUpperCase (JS.trim c)) (JS.trim p) = Resolved rows ->
  rows <> [] ->
  searchPostalCode statements (Some c) (Some p) fuzzy tr
  = (Resolved {| success := true;
                 error := None;
                 matchType := Some MatchType.exact;
                 query := Some {| country := JS.toUpperCase (JS.trim c);
                                  postalCode := JS.trim p |};
                 results := formatResults (map fromStore rows) |},
     tr ++ [FindExact (JS.toUpperCase (JS.trim c)) (JS.trim p)]).
Proof.
  intros Hc Hp Hexact Hrows.
  rewrite (searchPostalCode_run c p fuzzy tr Hc Hp).
  rewrite Hexact. cbn [Design.softRows].
  rewrite nonempty_length; [reflexivity|].
  destruct rows; [congruence|discriminate].
Qed.

(** The rows the three strategies resolve with are the candidates of the
    design, whatever the trace. *)
Lemma strategies_surface_candidates (country postalCode : string)
      (below : Candidate -> Prop) :
  (forall strategy,
      In strategy [ fuzzyPostalCodeSearch statements country postalCode;
                    partialPostalCodeSearch statements country postalCode;
                    placeNameSearch statements country postalCode ] ->
      forall tr0 rows tr1,
        strategy tr0 = (Resolved rows, tr1) ->
        forall r, In r rows -> below r) ->
  forall r, In r (Design.candidates statements country postalCode) -> below r.
Proof.
  intros H r Hr. unfold Design.candidates in Hr.
  apply in_app_or in Hr as [Hr | Hr]; [|apply in_app_or in Hr as [Hr | Hr]].
  - eapply (H _ (or_introl eq_refl) []); [|exact Hr].
    apply soft_call_run.
  - eapply (H _ (or_intror (or_introl eq_refl)) []); [|exact Hr].
    apply partialPostalCodeSearch_run.
  - eapply (H _ (or_intror (or_intror (or_introl eq_refl))) []); [|exact Hr].
    apply soft_call_run.
Qed.

(** C5. When country and postal code are non-empty, the exact query yields
    no row (or is rejected), and, with fuzzy matching enabled, every row
    that one of the three fuzzy strategies resolves with scores below 0.5,
    the request resolves with [success = true], [matchType = none] and no
    results. *)
Theorem no_match_is_a_success (c p : string) (fuzzy : bool) (tr : Trace) :
  c <> "" -> p <> "" ->
  let C := JS.toUpperCase (JS.trim c) in
  let P := JS.trim p in
  (findExact statements C P = Resolved []
   \/ exists e, findExact statements C P = Rejected e) ->
  (fuzzy = true ->
   forall strategy,
     In strategy [ fuzzyPostalCodeSearch statements C P;
                   partialPostalCodeSearch statements C P;
                   placeNameSearch statements C P ] ->
     forall tr0 rows tr1,
       strategy tr0 = (Resolved rows, tr1) ->
       forall r : Candidate,
         In r rows -> calculateSimilarity P (postal_code r) < (5 # 10)) ->
  exists tr',
    searchPostalCode statements (Some c) (Some p) fuzzy tr
    = (Resolved {| success := true;
                   error := None;
                   matchType := Some MatchType.none;
                   query := Some {| country := C; postalCode := P |};
                   results := [] |},
       tr').
Proof.
  intros Hc Hp C P Hexact Hfuzzy. subst C P.
  rewrite (searchPostalCode_run c p fuzzy tr Hc Hp).
  rewrite (no_rows_soft _ Hexact). cbn [List.length Nat.ltb Nat.leb].
  destruct fuzzy; [|eexists; reflexivity].
  pose proof (strategies_surface_candidates _ _ _ (Hfuzzy eq_refl)) as Hbelow.
  assert (Hnone :
    forall (l : list Candidate) (state : Gathered),
      (forall r, In r l ->
                 calculateSimilarity (JS.trim p) (postal_code r) < (5 # 10)) ->
      fst (fold_left (absorb (JS.trim p)) l state) = fst state).
  { induction l as [|r l IH]; intros state Hl; [reflexivity|].
    simpl. rewrite IH by (intros; apply Hl; now right).
    destruct state as [allResults seen]. unfold absorb.
    destruct (existsb _ seen); [reflexivity|].
    destruct (Qle_bool (5 # 10) (calculateSimilarity (JS.trim p) (postal_code r)))
      eqn:E; [|reflexivity].
    apply Qle_bool_iff in E.
    specialize (Hl r (or_introl eq_refl)). lra. }
  rewrite (Hnone _ ([], []) Hbelow). simpl.
  eexists; reflexivity.
Qed.

(** C8, as the code has it. Validation looks at the arguments as they
    were passed, before any trimming: when the country or the postal code
    is missing or is the empty string, the request resolves with
    [success = false] and the error "Country and postal code are required",
    and the trace of store calls is unchanged. *)
Theorem missing_input_is_rejected (country postalCode : option string)
        (fuzzy : bool) (tr : Trace) :
  (country = None \/ country = Some "")
  \/ (postalCode = None \/ postalCode = Some "") ->
  searchPostalCode statements country postalCode fuzzy tr
  = (Resolved {| success := false;
                 error := Some "Country and postal code are required";
                 matchType := None;
                 query := None;
                 results := [] |},
     tr).
Proof.
  intro H. unfold searchPostalCode.
  assert (E : negb (JS.truthy country) || negb (JS.truthy postalCode) = true).
  { destruct H as [[-> | ->] | [-> | ->]]; simpl;
      try reflexivity; apply orb_true_r. }
  rewrite E. reflexivity.
Qed.

(** C10. Whenever a request answers with [matchType = exact], every
    record in its results carries [similarity_score = 1]: the rows of the
    exact query reach [formatResults] without a score, and [formatResults]
    gives every row without a score the score 1. *)
Theorem exact_results_score_one (country postalCode : option string)
        (fuzzy : bool) (tr tr' : Trace) (res : SearchResult) :
  searchPostalCode statements country postalCode fuzzy tr = (Resolved res, tr') ->
  matchType res = Some MatchType.exact ->
  Forall (fun f => Formatted.similarity_score f = 1) (results res)
  /\ (forall rows : list Candidate,
        Forall (fun r : Candidate => similarity_score r = None) rows ->
        Forall (fun f => Formatted.similarity_score f = 1) (formatResults rows)).
Proof.
  intros Hrun Hexact. split; [|apply formatResults_unscored].
  destruct (JS.truthy country) eqn:Ec; [destruct (JS.truthy postalCode) eqn:Ep|].
  - destruct country as [c|]; [|discriminate].
    destruct postalCode as [p|]; [|discriminate].
    assert (Hc : c <> "").
    { unfold JS.truthy in Ec. apply negb_true_iff in Ec. now apply String.eqb_neq. }
    assert (Hp : p <> "").
    { unfold JS.truthy in Ep. apply negb_true_iff in Ep. now apply String.eqb_neq. }
    rewrite (searchPostalCode_run c p fuzzy tr Hc Hp) in Hrun.
    cbv zeta in Hrun.
    destruct (0 <? List.length _)%nat in Hrun.
    + inversion Hrun; subst. simpl.
      apply formatResults_unscored, softRows_unscored.
    + destruct fuzzy.
      * destruct (0 <? List.length _)%nat in Hrun;
          inversion Hrun; subst; discriminate.
      * inversion Hrun; subst; discriminate.
  - unfold searchPostalCode in Hrun. rewrite Ec, Ep in Hrun.
    inversion Hrun; subst; discriminate.
  - unfold searchPostalCode in Hrun. rewrite Ec in Hrun.
    inversion Hrun; subst; discriminate.
Qed.

(** C6, as the code has it. The prefix-shrinking strategy belongs to
    every fuzzy stage: when the exact query yields no row and fuzzy
    matching is enabled, the request calls the store for the exact query,
    the fuzzy-pattern query, the prefix-shrinking queries and the place-name
    query, in that order, whatever the fuzzy-pattern query returned.  The
    prefix-shrinking queries are the ones of [Design.shrinkCalls]: the
    [i]-th one (from 0) sends the first [n - 1 - i] characters, for as long
    as that length is at least [max(2, floor(0.6 n))], and none is sent
    once the accumulated rows number 20 or more. *)
Theorem prefix_shrinking_in_every_fuzzy_stage (c p : string) (tr : Trace) :
  c <> "" -> p <> "" ->
  (findExact statements (JS.toUpperCase (JS.trim c)) (JS.trim p) = Resolved []
   \/ exists e,
       findExact statements (JS.toUpperCase (JS.trim c)) (JS.trim p) = Rejected e) ->
  let C := JS.toUpperCase (JS.trim c) in
  let P := JS.trim p in
  let n := String.length P in
  snd (searchPostalCode statements (Some c) (Some p) true tr)
  = tr ++ [FindExact C P; FindFuzzy C P]
       ++ Design.shrinkCalls statements C P (Design.shrinkLengths n) 0
       ++ [FindByPlace C P]
  /\ (forall tr0,
        partialPostalCodeSearch statements C P tr0
        = (Resolved (Design.shrinkRows statements C P (Design.shrinkLengths n) []),
           tr0 ++ Design.shrinkCalls statements C P (Design.shrinkLengths n) 0))
  /\ (forall i,
        nth_error (Design.shrinkLengths n) i
        = if (i <? n - Nat.max 2 (6 * n / 10))%nat
          then Some (n - 1 - i)%nat
          else None).
Proof.
  intros Hc Hp Hexact C P n. split; [|split].
  - subst C P n. rewrite (searchPostalCode_run c p true tr Hc Hp).
    cbv zeta. rewrite (no_rows_soft _ Hexact).
    cbn [List.length Nat.ltb Nat.leb snd]. unfold Design.fuzzyCalls.
    rewrite <- !app_assoc. reflexivity.
  - intro tr0. apply partialPostalCodeSearch_run.
  - intro i. unfold Design.shrinkLengths, Design.floorLength.
    rewrite shrinkLengths_nth.
    destruct (Nat.ltb_spec i (n - Nat.max 2 (6 * n / 10))); [f_equal; lia|reflexivity].
Qed.

End Orchestrator.

(** ** The comparator on candidates whose scores are within the tolerance *)

Lemma compareCandidates_within_tolerance (a b : Candidate) (sa sb : Q) :
  similarity_score a = Some sa -> similarity_score b = Some sb ->
  Qabs (sa - sb) <= (1 # 100) ->
  ((orZero (accuracy b) < orZero (accuracy a))%Z -> compareCandidates a b < 0)
  /\ ((orZero (accuracy a) < orZero (accuracy b))%Z -> 0 < compareCandidates a b)
  /\ (accuracy a = accuracy b ->
      compareCandidates a b
      = inject_Z (JS.localeCompare (postal_code a) (postal_code b))).
Proof.
  intros Ha Hb Hclose. unfold compareCandidates, scoresApart. rewrite Ha, Hb.
  destruct (Qltb (1 # 100) (Qabs (sa - sb))) eqn:E.
  { apply Qltb_true in E. lra. }
  assert (Hne : forall x y : option Z, orZero x <> orZero y -> strictNe x y = true).
  { intros [x|] [y|] Hxy; simpl in *; try reflexivity;
      [apply negb_true_iff, Z.eqb_neq; congruence | congruence]. }
  assert (Heq : forall x : option Z, strictNe x x = false).
  { intros [x|]; simpl; [|reflexivity]. now rewrite Z.eqb_refl. }
  repeat split.
  - intro Hlt. rewrite Hne by lia. unfold Qlt; simpl. lia.
  - intro Hlt. rewrite Hne by lia. unfold Qlt; simpl. lia.
  - intros ->. now rewrite Heq.
Qed.

(** ** Concrete requests *)

Example score_of_a_near_miss : calculateSimilarity "90210" "90211" = 1.
Proof. reflexivity. Qed.

Example score_counts_the_prefix_without_case :
  prefixLength "ab" "ABc" = 2%nat /\ calculateSimilarity "ab" "ABc" == (2 # 10).
Proof. split; reflexivity. Qed.

Example score_of_a_short_query : calculateSimilarity "9" "90210" == (26 # 100).
Proof. reflexivity. Qed.

Example lengths_for_ten_characters : Design.shrinkLengths 10 = [9; 8; 7; 6]%nat.
Proof. reflexivity. Qed.

Example lengths_for_two_characters : Design.shrinkLengths 2 = [].
Proof. reflexivity. Qed.

Example store_down_is_no_match :
  searchPostalCode Sample.downStore (Some "US") (Some "90210") true []
  = (Resolved {| success := true;
                 error := None;
                 matchType := Some MatchType.none;
                 query := Some {| country := "US"; postalCode := "90210" |};
                 results := [] |},
     [FindExact "US" "90210"; FindFuzzy "US" "90210"; FindFuzzy "US" "9021";
      FindByPlace "US" "90210"]).
Proof. vm_compute. reflexivity. Qed.

(** C3, at a failing input. The store lists code "102" with accuracy 0
    before code "101" with no accuracy; both score alike against "10".  The
    comparator sees different accuracies, subtracts 0 from 0 and answers 0
    without consulting the postal codes, so the aggregation keeps "102" in
    front of "101". *)
Theorem null_and_zero_accuracy_tie :
  let a := setScore (fromStore (Sample.row "IS" "102" "Reykjavik" "Hofudborgarsvaedi" "1" (Some 0%Z)))
                    (calculateSimilarity "10" "102") in
  let b := setScore (fromStore (Sample.row "IS" "101" "Reykjavik" "Hofudborgarsvaedi" "1" None))
                    (calculateSimilarity "10" "101") in
  calculateSimilarity "10" "102" == calculateSimilarity "10" "101"
  /\ compareCandidates a b = 0
  /\ compareCandidates b a = 0
  /\ JS.localeCompare (postal_code a) (postal_code b) = 1%Z
  /\ findFuzzyMatches Sample.tiedStore "IS" "10" []
     = (Resolved [a; b], [FindFuzzy "IS" "10"; FindByPlace "IS" "10"]).
Proof.
  cbv zeta. repeat split; vm_compute; reflexivity.
Qed.


(** C6, refuted as stated. For the query "9021" the exact query finds
    nothing and the fuzzy-pattern query returns three rows, each of which
    clears the threshold; the request still sends the prefixes "902" and "90"
    to the store before it answers with those three rows. *)
Lemma prefix_shrinking_runs_after_fuzzy_pattern_succeeds :
  (exists rows,
      fuzzyPostalCodeSearch Sample.store "US" "9021" []
      = (Resolved rows, [FindFuzzy "US" "9021"])
      /\ List.length rows = 3%nat
      /\ Forall (fun r : Candidate =>
                   (5 # 10) <= calculateSimilarity "9021" (postal_code r)) rows)
  /\ (exists res,
         searchPostalCode Sample.store (Some "US") (Some "9021") true []
         = (Resolved res,
            [FindExact "US" "9021"; FindFuzzy "US" "9021";
             FindFuzzy "US" "902"; FindFuzzy "US" "90";
             FindByPlace "US" "9021"])
         /\ matchType res = Some MatchType.fuzzy
         /\ List.length (results res) = 3%nat).
Proof.
  split.
  - eexists. split; [vm_compute; reflexivity|]. split; [reflexivity|].
    repeat constructor; vm_compute; discriminate.
  - eexists. split; [vm_compute; reflexivity|]. split; reflexivity.
Qed.

(** C8, refuted as stated. A country made of blanks trims to the empty
    string, yet the request passes validation, queries the store and
    resolves with [success = true]. *)
Lemma blank_country_reaches_the_store :
  JS.trim "  " = ""
  /\ searchPostalCode Sample.store (Some "  ") (Some "90210") false []
     = (Resolved {| success := true;
                    error := None;
                    matchType := Some MatchType.none;
                    query := Some {| country := ""; postalCode := "90210" |};
                    results := [] |},
        [FindExact "" "90210"]).
Proof. split; vm_compute; reflexivity. Qed.

Lemma exact_match_short_circuits_witness :
  let rows := [Sample.row "US" "90210" "Beverly Hills" "California" "CA" (Some 4%Z)] in
  ("us" <> "" /\ " 90210 " <> ""
   /\ findExact Sample.store (JS.toUpperCase (JS.trim "us")) (JS.trim " 90210 ")
      = Resolved rows
   /\ rows <> [])
  /\ searchPostalCode Sample.store (Some "us") (Some " 90210 ") true []
     = (Resolved {| success := true;
                    error := None;
                    matchType := Some MatchType.exact;
                    query := Some {| country := JS.toUpperCase (JS.trim "us");
                                     postalCode := JS.trim " 90210 " |};
                    results := formatResults (map fromStore rows) |},
        [] ++ [FindExact (JS.toUpperCase (JS.trim "us")) (JS.trim " 90210 ")]).
Proof.
  cbv zeta. split.
  - split; [discriminate|]. split; [discriminate|].
    split; [reflexivity|discriminate].
  - apply (exact_match_short_circuits Sample.store "us" " 90210 " true []);
      [discriminate | discriminate | reflexivity | discriminate].
Defined.

Lemma no_match_is_a_success_witness :
  ("US" <> "" /\ "9" <> ""
   /\ findExact Sample.store "US" "9" = Resolved []
   /\ Forall (fun r : Candidate => calculateSimilarity "9" (postal_code r) < (5 # 10))
             (Design.candidates Sample.store "US" "9")
   /\ List.length (Design.candidates Sample.store "US" "9") = 3%nat)
  /\ exists tr',
      searchPostalCode Sample.store (Some "US") (Some "9") true []
      = (Resolved {| success := true;
                     error := None;
                     matchType := Some MatchType.none;
                     query := Some {| country := "US"; postalCode := "9" |};
                     results := [] |},
         tr').
Proof.
  assert (Hbelow :
    Forall (fun r : Candidate => calculateSimilarity "9" (postal_code r) < (5 # 10))
           (Design.candidates Sample.store "US" "9")).
  { vm_compute. repeat constructor. }
  split.
  - split; [discriminate|]. split; [discriminate|]. split; [reflexivity|].
    split; [exact Hbelow|reflexivity].
  - apply (no_match_is_a_success Sample.store "US" "9" true []).
    + discriminate.
    + discriminate.
    + left. reflexivity.
    + intros _ strategy Hin tr0 rows tr1 Hrun r Hr.
      change (JS.toUpperCase (JS.trim "US")) with "US" in Hin.
      change (JS.trim "9") with "9" in Hin |- *.
      assert (Hrows : incl rows (Design.candidates Sample.store "US" "9")).
      { unfold Design.candidates.
        destruct Hin as [<- | [<- | [<- | []]]].
        - unfold fuzzyPostalCodeSearch in Hrun.
          rewrite soft_call_run in Hrun. inversion Hrun; subst.
          now apply incl_appl.
        - rewrite partialPostalCodeSearch_run in Hrun. inversion Hrun; subst.
          apply incl_appr. now apply incl_appl.
        - unfold placeNameSearch in Hrun.
          rewrite soft_call_run in Hrun. inversion Hrun; subst.
          apply incl_appr. now apply incl_appr. }
      exact (proj1 (Forall_forall _ _) Hbelow r (Hrows r Hr)).
Defined.

Lemma missing_input_is_rejected_witness :
  ((@None string = None \/ @None string = Some "")
   \/ (Some "90210" = None \/ Some "90210" = Some ""))
  /\ searchPostalCode Sample.store None (Some "90210") true []
     = (Resolved {| success := false;
                    error := Some "Country and postal code are required";
                    matchType := None;
                    query := None;
                    results := [] |},
        []).
Proof.
  split.
  - left. left. reflexivity.
  - apply (missing_input_is_rejected Sample.store None (Some "90210") true []).
    left. left. reflexivity.
Defined.

Lemma exact_results_score_one_witness :
  exists res tr',
    searchPostalCode Sample.store (Some "US") (Some "90210") true []
    = (Resolved res, tr')
    /\ matchType res = Some MatchType.exact
    /\ List.length (results res) = 1%nat
    /\ Forall (fun f => Formatted.similarity_score f = 1) (results res).
Proof.
  eexists. eexists. split; [vm_compute; reflexivity|]. split; [reflexivity|].
  split; [reflexivity|].
  refine (proj1 (exact_results_score_one
                   Sample.store (Some "US") (Some "90210") true [] _ _ _ _)).
  - vm_compute. reflexivity.
  - reflexivity.
Defined.

Lemma prefix_shrinking_in_every_fuzzy_stage_witness :
  ("US" <> "" /\ "9021" <> "" /\ findExact Sample.store "US" "9021" = Resolved [])
  /\ Design.shrinkLengths 4 = [3; 2]%nat
  /\ Design.shrinkCalls Sample.store "US" "9021" (Design.shrinkLengths 4) 0
     = [FindFuzzy "US" "902"; FindFuzzy "US" "90"]
  /\ snd (searchPostalCode Sample.store (Some "US") (Some "9021") true [])
     = [] ++ [FindExact "US" "9021"; FindFuzzy "US" "9021"]
          ++ Design.shrinkCalls Sample.store "US" "9021" (Design.shrinkLengths 4) 0
          ++ [FindByPlace "US" "9021"].
Proof.
  split; [|split; [|split]].
  - split; [discriminate|]. split; [discriminate|reflexivity].
  - reflexivity.
  - reflexivity.
  - apply (prefix_shrinking_in_every_fuzzy_stage Sample.store "US" "9021" []).
    + discriminate.
    + discriminate.
    + left. reflexivity.
Defined.

(** * Further properties *)

(** ** More on the scorer *)






Lemma Qnat_plus (n m : nat) : Qnat (n + m) == Qnat n + Qnat m.
Proof. unfold Qnat. now rewrite Nat2Z.inj_add, inject_Z_plus. Qed.

Lemma Qnat_mult (n m : nat) : Qnat (n * m) == Qnat n * Qnat m.
Proof. unfold Qnat. now rewrite Nat2Z.inj_mul, inject_Z_mult. Qed.

Lemma Qnat_lt (n m : nat) : (n < m)%nat -> Qnat n < Qnat m.
Proof. unfold Qnat, Qlt; simpl. lia. Qed.

Lemma Qnat_0 : Qnat 0 = 0.
Proof. reflexivity. Qed.

Lemma Qnat_nonzero (n : nat) : (0 < n)%nat -> ~ Qnat n == 0.
Proof. intros Hn E. pose proof (Qnat_pos n Hn) as H. rewrite E in H. discriminate. Qed.

(** X1. An empty string scores 0 against every non-empty string, in
    either position. *)
Theorem empty_string_scores_zero (t : string) :
  t <> "" ->
  calculateSimilarity "" t == 0 /\ calculateSimilarity t "" == 0.
Proof.
  intro Ht.
  assert (H : calculateSimilarity "" t == 0).
  { unfold calculateSimilarity.
    destruct t as [|c t]; [congruence|].
    cbn [String.eqb String.length Nat.max Nat.min Nat.eqb levenshtein.get prefixLength].
    rewrite Qnat_0.
    assert (Hn : ~ Qnat (S (String.length t)) == 0) by (apply Qnat_nonzero; lia).
    assert (E : 1 - Qnat (S (String.length t)) / Qnat (S (String.length t))
                + 0 / Qnat (S (String.length t)) * (1 # 10)
                + 0 / Qnat (S (String.length t)) * (2 # 10) == 0) by (field; exact Hn).
    rewrite E. reflexivity. }
  split; [exact H|]. now rewrite calculateSimilarity_swap.
Qed.



(** A score is a multiple of [1 / (10 M)], where [M] is the longer of the
    two lengths: a score above the threshold 0.5 is above it by that much at
    least. *)
Lemma score_above_threshold_margin (a b : string) :
  (5 # 10) < calculateSimilarity a b ->
  (5 # 10) + 1 / (10 * Qnat (Nat.max (String.length a) (String.length b)))
  <= calculateSimilarity a b.
Proof.
  set (M := Nat.max (String.length a) (String.length b)).
  assert (Hsmall : 1 / (10 * Qnat M) <= 1 # 10).
  { destruct M as [|k]; [vm_compute; discriminate|].
    assert (H1 : 1 <= Qnat (S k)).
    { change 1 with (Qnat 1). apply Qnat_le. lia. }
    apply Qle_shift_div_r; lra. }
  unfold calculateSimilarity. destruct (a =? b)%string; [intros _; lra|].
  fold M. destruct (Nat.eqb_spec M 0) as [E|HM]; [intros _; lra|].
  set (d := levenshtein.get a b).
  set (m := Nat.min (String.length a) (String.length b)).
  set (p := prefixLength a b).
  assert (Hpos : 0 < Qnat M) by (apply Qnat_pos; lia).
  assert (E : 1 - Qnat d / Qnat M + Qnat m / Qnat M * (1 # 10)
              + Qnat p / Qnat M * (2 # 10)
              == (10 * Qnat M - 10 * Qnat d + Qnat m + 2 * Qnat p)
                 / (10 * Qnat M)) by (field; lra).
  rewrite E. intro H. apply Q.min_glb_lt_iff in H as [_ H].
  apply Q.min_glb; [lra|].
  assert (Hlt : Qnat (5 * M + 10 * d) < Qnat (10 * M + m + 2 * p)).
  { rewrite !Qnat_plus, !Qnat_mult.
    change (Qnat 5) with 5. change (Qnat 10) with 10. change (Qnat 2) with 2.
    destruct (Qlt_le_dec (5 * Qnat M + 10 * Qnat d)
                         (10 * Qnat M + Qnat m + 2 * Qnat p)) as [Hok|Hbad];
      [exact Hok|exfalso].
    apply (Qlt_not_le _ _ H). apply Qle_shift_div_r; lra. }
  assert (Hle : Qnat (5 * M + 10 * d + 1) <= Qnat (10 * M + m + 2 * p)).
  { apply Qnat_le. unfold Qnat, Qlt in Hlt. simpl in Hlt. lia. }
  rewrite !Qnat_plus, !Qnat_mult in Hle.
  change (Qnat 5) with 5 in Hle. change (Qnat 10) with 10 in Hle.
  change (Qnat 2) with 2 in Hle. change (Qnat 1) with 1 in Hle.
  apply Qle_shift_div_l; [lra|].
  assert (E' : ((5 # 10) + 1 / (10 * Qnat M)) * (10 * Qnat M) == 5 * Qnat M + 1)
    by (field; lra).
  rewrite E'. lra.
Qed.

(** ** More on the prefix-shrinking strategy *)

Lemma length_prefix (len : nat) (s : string) :
  (len <= String.length s)%nat -> String.length (JS.prefix len s) = len.
Proof.
  unfold JS.prefix. revert s. induction len as [|len IH]; intros s Hlen.
  - destruct s; reflexivity.
  - destruct s as [|c s]; simpl in *; [lia|]. rewrite IH; [reflexivity|lia].
Qed.

Section Shrinking.

Variable statements : Statements.
Variables country postalCode : string.

Local Abbreviation calls := (Design.shrinkCalls statements country postalCode).
Local Abbreviation rows := (Design.shrinkRows statements country postalCode).

Lemma shrinkCalls_length (lens : list nat) (count : nat) :
  (List.length (calls lens count) <= List.length lens)%nat.
Proof.
  revert count. induction lens as [|len lens IH]; intro count;
    cbn [Design.shrinkCalls List.length]; [lia|].
  destruct (findFuzzy statements country (JS.prefix len postalCode)) as [rs|e];
    cbn [List.length]; [|lia].
  destruct (maxResults <=? count + List.length rs)%nat; cbn [List.length]; [lia|].
  specialize (IH (count + List.length rs)%nat). lia.
Qed.

Lemma shrinkCalls_from (lens : list nat) (count : nat) (call : StoreCall) :
  In call (calls lens count) ->
  exists len, In len lens /\ call = FindFuzzy country (JS.prefix len postalCode).
Proof.
  revert count. induction lens as [|len lens IH]; intros count Hin;
    cbn [Design.shrinkCalls] in Hin.
  - contradiction.
  - destruct Hin as [<-|Hin]; [exists len; split; [now left|reflexivity]|].
    destruct (findFuzzy statements country (JS.prefix len postalCode)) as [rs|e];
      [|contradiction].
    destruct (maxResults <=? count + List.length rs)%nat; [contradiction|].
    destruct (IH _ Hin) as (len' & Hlen' & ->).
    exists len'. split; [now right|reflexivity].
Qed.

Lemma shrinkRows_rejected (lens : list nat) (held : list Candidate) (q : string) :
  In (FindFuzzy country q) (calls lens (List.length held)) ->
  (exists e, findFuzzy statements country q = Rejected e) ->
  rows lens held = [].
Proof.
  intros Hin [e He]. revert held Hin.
  induction lens as [|len lens IH]; intros held Hin;
    cbn [Design.shrinkCalls Design.shrinkRows] in *.
  - contradiction.
  - destruct Hin as [E|Hin].
    + inversion E as [Eq]. rewrite <- Eq in He. now rewrite He.
    + destruct (findFuzzy statements country (JS.prefix len postalCode)) as [rs|e'];
        [|reflexivity].
      rewrite length_app, length_map.
      destruct (maxResults <=? List.length held + List.length rs)%nat;
        [contradiction|].
      apply IH. now rewrite length_app, length_map.
Qed.

Lemma shrinkRows_bound (limit : nat) (lens : list nat) (held : list Candidate) :
  (forall q rs, findFuzzy statements country q = Resolved rs ->
                (List.length rs <= limit)%nat) ->
  (List.length held < maxResults)%nat ->
  (List.length (rows lens held) <= 19 + limit)%nat.
Proof.
  intro Hlimit. revert held.
  induction lens as [|len lens IH]; intros held Hheld;
    cbn [Design.shrinkRows].
  - unfold maxResults in Hheld. lia.
  - destruct (findFuzzy statements country (JS.prefix len postalCode)) as [rs|e] eqn:E;
      [|cbn [List.length]; lia].
    specialize (Hlimit _ _ E).
    destruct (Nat.leb_spec maxResults (List.length (held ++ map fromStore rs)))
      as [Hfull|Hmore].
    + rewrite length_app, length_map. unfold maxResults in Hheld. lia.
    + now apply IH.
Qed.

Lemma shrinkRows_from (lens : list nat) (held : list Candidate) (r : Candidate) :
  In r (rows lens held) ->
  In r held
  \/ exists len rs,
      In len lens
      /\ findFuzzy statements country (JS.prefix len postalCode) = Resolved rs
      /\ In r (map fromStore rs).
Proof.
  revert held. induction lens as [|len lens IH]; intros held Hin;
    cbn [Design.shrinkRows] in Hin.
  - now left.
  - destruct (findFuzzy statements country (JS.prefix len postalCode)) as [rs|e] eqn:E;
      [|contradiction].
    assert (Hstep : In r (held ++ map fromStore rs) ->
                    In r held \/ exists len' rs',
                      In len' (len :: lens)
                      /\ findFuzzy statements country (JS.prefix len' postalCode)
                         = Resolved rs'
                      /\ In r (map fromStore rs')).
    { intro H. apply in_app_or in H as [H|H]; [now left|].
      right. exists len, rs. repeat split; [now left|exact E|exact H]. }
    destruct (maxResults <=? List.length (held ++ map fromStore rs))%nat;
      [now apply Hstep|].
    destruct (IH _ Hin) as [H|(len' & rs' & Hl & Hf & Hr)]; [now apply Hstep|].
    right. exists len', rs'. repeat split; [now right|exact Hf|exact Hr].
Qed.

Lemma shrinkLengths_range (n len : nat) :
  In len (Design.shrinkLengths n) ->
  (2 <= len /\ 6 * n / 10 <= len /\ len < n)%nat.
Proof.
  unfold Design.shrinkLengths, Design.floorLength.
  rewrite <- in_rev, in_seq. lia.
Qed.

Lemma shrinkLengths_length (n : nat) :
  List.length (Design.shrinkLengths n) = (n - Nat.max 2 (6 * n / 10))%nat.
Proof.
  unfold Design.shrinkLengths, Design.floorLength.
  now rewrite length_rev, length_seq.
Qed.

(** X3. A query of at most two characters has no prefix to try: the
    strategy resolves with no rows and calls the store not at all. *)
Theorem no_prefix_for_short_queries (tr : Trace) :
  (String.length postalCode <= 2)%nat ->
  partialPostalCodeSearch statements country postalCode tr = (Resolved [], tr).
Proof.
  intro Hlen. rewrite partialPostalCodeSearch_run.
  assert (E : Design.shrinkLengths (String.length postalCode) = []).
  { apply length_zero_iff_nil. rewrite shrinkLengths_length. lia. }
  rewrite E. cbn [Design.shrinkRows Design.shrinkCalls]. now rewrite app_nil_r.
Qed.

(** X4. The strategy only ever adds fuzzy-pattern queries for prefixes of
    the query that are shorter than the query, at least two characters long
    and no shorter than [floor(0.6 n)]; it adds at most [n - 2] of them. *)
Theorem prefix_queries_are_proper_prefixes (tr : Trace) :
  let n := String.length postalCode in
  exists out added,
    partialPostalCodeSearch statements country postalCode tr
    = (Resolved out, tr ++ added)
    /\ (List.length added <= n - 2)%nat
    /\ forall call, In call added ->
       exists len,
         call = FindFuzzy country (JS.prefix len postalCode)
         /\ String.length (JS.prefix len postalCode) = len
         /\ (2 <= len /\ 6 * n / 10 <= len /\ len < n)%nat.
Proof.
  intro n. eexists. eexists. split; [apply partialPostalCodeSearch_run|].
  fold n. split.
  - pose proof (shrinkCalls_length (Design.shrinkLengths n) 0) as H.
    rewrite shrinkLengths_length in H. lia.
  - intros call Hin.
    destruct (shrinkCalls_from _ _ _ Hin) as (len & Hlen & ->).
    apply shrinkLengths_range in Hlen.
    exists len. split; [reflexivity|]. split; [|exact Hlen].
    apply length_prefix. subst n. lia.
Qed.

(** X5. One rejected prefix query costs the strategy everything: when any
    of the queries it made was rejected, it resolves with no rows, also
    when earlier prefixes had returned some. *)
Theorem rejected_prefix_query_discards_rows (tr : Trace) (out : list Candidate)
        (added : Trace) (q : string) :
  partialPostalCodeSearch statements country postalCode tr
  = (Resolved out, tr ++ added) ->
  In (FindFuzzy country q) added ->
  (exists e, findFuzzy statements country q = Rejected e) ->
  out = [].
Proof.
  intros Hrun Hin Hrej. rewrite partialPostalCodeSearch_run in Hrun.
  inversion Hrun as [[Hout Htr]]. apply app_inv_head in Htr. subst added.
  eapply (shrinkRows_rejected _ [] q); eassumption.
Qed.

(** X6. When the store never answers a fuzzy-pattern query with more than
    [limit] rows (the query carries LIMIT 20), the strategy resolves with
    at most [19 + limit] rows. *)
Theorem prefix_rows_are_bounded (limit : nat) (tr : Trace) :
  (forall q rs, findFuzzy statements country q = Resolved rs ->
                (List.length rs <= limit)%nat) ->
  exists out tr',
    partialPostalCodeSearch statements country postalCode tr = (Resolved out, tr')
    /\ (List.length out <= 19 + limit)%nat.
Proof.
  intro Hlimit. eexists. eexists.
  split; [apply partialPostalCodeSearch_run|].
  apply shrinkRows_bound; [exact Hlimit|]. unfold maxResults. cbn [List.length]. lia.
Qed.

End Shrinking.

(** ** More on the aggregation *)

Lemma seen_spec (key : string) (seen : list string) :
  existsb (String.eqb key) seen = true <-> In key seen.
Proof.
  rewrite existsb_exists. split.
  - intros (k & Hk & E). apply String.eqb_eq in E. now subst.
  - intro H. exists key. split; [exact H|apply String.eqb_refl].
Qed.

Lemma insert_Permutation {A} (cmp : A -> A -> Q) (x : A) (l : list A) :
  Permutation (insert cmp x l) (x :: l).
Proof.
  induction l as [|y l IH]; simpl; [reflexivity|].
  destruct (Qle_bool (cmp x y) 0); [reflexivity|].
  rewrite IH. apply perm_swap.
Qed.

Lemma sort_Permutation {A} (cmp : A -> A -> Q) (l : list A) :
  Permutation (sort cmp l) l.
Proof.
  induction l as [|x l IH]; simpl; [reflexivity|].
  rewrite insert_Permutation. now constructor.
Qed.

Lemma NoDup_firstn {A} (n : nat) (l : list A) : NoDup l -> NoDup (firstn n l).
Proof.
  intro H. rewrite <- (firstn_skipn n l) in H. now apply NoDup_app_remove_r in H.
Qed.

Lemma firstn_short {A} (n : nat) (l : list A) :
  (List.length (firstn n l) < n)%nat -> firstn n l = l.
Proof.
  intro H. apply firstn_all2. rewrite length_firstn in H. lia.
Qed.

Lemma absorb_step (postalCode : string) (allResults : list Candidate)
      (seenRecords : list string) (c : Candidate) :
  absorb postalCode (allResults, seenRecords) c
  = if existsb (String.eqb (recordKey c)) seenRecords
    then (allResults, seenRecords)
    else if Qle_bool (5 # 10) (calculateSimilarity postalCode (postal_code c))
         then (allResults ++ [scored postalCode c], recordKey c :: seenRecords)
         else (allResults, recordKey c :: seenRecords).
Proof. reflexivity. Qed.

Section Aggregation.

Variable postalCode : string.

Local Abbreviation gather := (fold_left (absorb postalCode)).

Lemma gather_from (incoming : list Candidate) (state : Gathered) (r : Candidate) :
  In r (fst (gather incoming state)) ->
  In r (fst state) \/ exists c, In c incoming /\ r = scored postalCode c.
Proof.
  revert state. induction incoming as [|c incoming IH]; intros [all seen] Hin.
  - now left.
  - cbn [fold_left] in Hin. rewrite absorb_step in Hin.
    destruct (existsb _ seen).
    { destruct (IH _ Hin) as [H|(c' & Hc' & E)]; [now left|].
      right. exists c'. split; [now right|exact E]. }
    destruct (Qle_bool _ _);
      (destruct (IH _ Hin) as [H|(c' & Hc' & E)];
       [|right; exists c'; split; [now right|exact E]]).
    + cbn [fst] in H. apply in_app_or in H as [H|[<-|[]]]; [now left|].
      right. exists c. split; [now left|reflexivity].
    + now left.
Qed.

Lemma gather_keysTracked (incoming : list Candidate) (state : Gathered) :
  keysTracked state -> keysTracked (gather incoming state).
Proof.
  revert state. induction incoming as [|c incoming IH]; intros [all seen] Hinv.
  - exact Hinv.
  - cbn [fold_left]. apply IH. rewrite absorb_step.
    destruct (existsb _ seen) eqn:Eseen; [exact Hinv|].
    destruct Hinv as [Hnd Hseen]. cbn [fst snd] in *.
    destruct (Qle_bool _ _); split; cbn [fst snd].
    + rewrite map_app. cbn [map]. apply NoDup_app.
      * exact Hnd.
      * repeat constructor. intros [].
      * intros k Hk [<-|[]].
        apply in_map_iff in Hk as (r & Hr & Hin).
        apply Hseen in Hin. rewrite Hr in Hin.
        change (recordKey (scored postalCode c)) with (recordKey c) in Hin.
        apply seen_spec in Hin. congruence.
    + intros r Hr. apply in_app_or in Hr as [Hr|[<-|[]]].
      * right. now apply Hseen.
      * now left.
    + exact Hnd.
    + intros r Hr. right. now apply Hseen.
Qed.

Lemma gather_keeps (incoming : list Candidate) (state : Gathered) (r : Candidate) :
  In r (fst state) -> In r (fst (gather incoming state)).
Proof.
  revert state. induction incoming as [|c incoming IH]; intros [all seen] Hin.
  - exact Hin.
  - cbn [fold_left]. apply IH. rewrite absorb_step.
    destruct (existsb _ seen); [exact Hin|].
    destruct (Qle_bool _ _); cbn [fst] in *; [|exact Hin].
    apply in_or_app. now left.
Qed.

Lemma gather_first_of_key (before after : list Candidate) (c : Candidate)
      (state : Gathered) :
  ~ In (recordKey c) (snd state) ->
  (forall c', In c' before -> recordKey c' <> recordKey c) ->
  (5 # 10) <= calculateSimilarity postalCode (postal_code c) ->
  In (scored postalCode c) (fst (gather (before ++ c :: after) state)).
Proof.
  revert state. induction before as [|b before IH]; intros [all seen] Hnew Hfirst Hok.
  - cbn [app fold_left]. apply gather_keeps. rewrite absorb_step.
    cbn [snd] in Hnew.
    destruct (existsb _ seen) eqn:E; [apply seen_spec in E; contradiction|].
    apply Qle_bool_iff in Hok. rewrite Hok. cbn [fst].
    apply in_or_app. right. now left.
  - cbn [app fold_left]. apply IH.
    + rewrite absorb_step. cbn [snd] in Hnew.
      assert (Hb : recordKey b <> recordKey c) by (apply Hfirst; now left).
      destruct (existsb _ seen); [exact Hnew|].
      destruct (Qle_bool _ _); cbn [snd]; intros [E|H]; congruence || contradiction.
    + intros c' Hc'. apply Hfirst. now right.
    + exact Hok.
Qed.

End Aggregation.

Lemma softRows_from (out : Outcome (list PostalRecord)) (c : Candidate) :
  In c (Design.softRows out) ->
  exists rows, out = Resolved rows /\ In c (map fromStore rows).
Proof.
  destruct out as [rows|e]; simpl; [|contradiction].
  intro H. now exists rows.
Qed.

Section AggregationFacts.

Variable statements : Statements.
Variables country postalCode : string.

Lemma findFuzzyMatches_out (tr tr' : Trace) (out : list Candidate) :
  findFuzzyMatches statements country postalCode tr = (Resolved out, tr') ->
  out = firstn maxResults
          (sort compareCandidates
             (fst (fold_left (absorb postalCode)
                             (Design.candidates statements country postalCode)
                             ([], [])))).
Proof. rewrite findFuzzyMatches_run. congruence. Qed.

(** X7. Every entry that fuzzy aggregation returns is a row the store
    returned, either to a fuzzy-pattern query for this country or to the
    place-name query, and the score it carries is the scorer's value for the
    query against that row's postal code. *)
Theorem returned_entries_are_scored_store_rows (tr tr' : Trace)
        (out : list Candidate) (r : Candidate) :
  findFuzzyMatches statements country postalCode tr = (Resolved out, tr') ->
  In r out ->
  similarity_score r = Some (calculateSimilarity postalCode (postal_code r))
  /\ ((exists q rows,
          findFuzzy statements country q = Resolved rows /\ In (record r) rows)
      \/ (exists rows,
             findByPlace statements country postalCode = Resolved rows
             /\ In (record r) rows)).
Proof.
  intros Hrun Hin. apply findFuzzyMatches_out in Hrun. subst out.
  apply firstn_incl in Hin.
  apply (proj1 (sort_In compareCandidates _ _)) in Hin.
  apply gather_from in Hin as [[]|(c & Hc & ->)].
  split; [reflexivity|]. cbn [scored setScore record].
  assert (Hrow : forall rows, In c (map fromStore rows) -> In (record c) rows).
  { intros rows H. apply in_map_iff in H as (row & <- & Hrow). exact Hrow. }
  unfold Design.candidates in Hc.
  apply in_app_or in Hc as [Hc|Hc]; [|apply in_app_or in Hc as [Hc|Hc]].
  - apply softRows_from in Hc as (rows & E & Hc).
    left. exists postalCode, rows. split; [exact E|now apply Hrow].
  - apply shrinkRows_from in Hc as [[]|(len & rows & _ & E & Hc)].
    left. exists (JS.prefix len postalCode), rows. split; [exact E|now apply Hrow].
  - apply softRows_from in Hc as (rows & E & Hc).
    right. exists rows. split; [exact E|now apply Hrow].
Qed.

(** X8. Fuzzy aggregation never returns two entries with the same key
    [country_code:postal_code:place_name]. *)
Theorem returned_entries_have_distinct_keys (tr : Trace) :
  exists out tr',
    findFuzzyMatches statements country postalCode tr = (Resolved out, tr')
    /\ NoDup (map recordKey out).
Proof.
  eexists. eexists. split; [apply findFuzzyMatches_run|].
  rewrite <- firstn_map. apply NoDup_firstn.
  eapply Permutation_NoDup.
  - apply Permutation_map. symmetry. apply sort_Permutation.
  - apply (gather_keysTracked postalCode _ ([], [])).
    split; [constructor|intros r []].
Qed.

(** X9. Below the cap nothing that qualifies is lost: when fewer than 20
    entries are returned, every candidate that scores above 0.5 and is the
    first of the surfaced candidates with its key is among them, with its
    score.  By [score_above_threshold_margin] such a score keeps a distance
    from the threshold. *)
Theorem qualifying_candidates_are_returned (tr tr' : Trace)
        (out before after : list Candidate) (c : Candidate) :
  findFuzzyMatches statements country postalCode tr = (Resolved out, tr') ->
  (List.length out < 20)%nat ->
  Design.candidates statements country postalCode = before ++ c :: after ->
  (forall c', In c' before -> recordKey c' <> recordKey c) ->
  (5 # 10) < calculateSimilarity postalCode (postal_code c) ->
  In (scored postalCode c) out.
Proof.
  intros Hrun Hlen Hsplit Hfirst Hok. apply Qlt_le_weak in Hok.
  apply findFuzzyMatches_out in Hrun.
  subst out. change 20%nat with maxResults in Hlen.
  rewrite firstn_short by exact Hlen.
  apply (sort_In compareCandidates). rewrite Hsplit.
  apply gather_first_of_key; [intros []|exact Hfirst|exact Hok].
Qed.

End AggregationFacts.

(** ** More on the orchestrator *)

Lemma calculateSimilarity_le_1 (query target : string) :
  calculateSimilarity query target <= 1.
Proof.
  unfold calculateSimilarity.
  destruct (query =? target)%string; [discriminate|].
  destruct (_ =? 0)%nat; [discriminate|]. apply Q.le_min_l.
Qed.

Lemma arguments_cases (country postalCode : option string) :
  (negb (JS.truthy country) || negb (JS.truthy postalCode) = true
   /\ ((country = None \/ country = Some "")
       \/ (postalCode = None \/ postalCode = Some "")))
  \/ exists c p,
      country = Some c /\ postalCode = Some p /\ c <> "" /\ p <> "".
Proof.
  destruct country as [c|]; [|left; split; [reflexivity|tauto]].
  destruct (String.eqb_spec c "") as [->|Hc]; [left; split; [reflexivity|tauto]|].
  destruct postalCode as [p|].
  2:{ left. split; [apply orb_true_r|tauto]. }
  destruct (String.eqb_spec p "") as [->|Hp].
  { left. split; [apply orb_true_r|tauto]. }
  right. exists c, p. tauto.
Qed.

Lemma formatResults_length (l : list Candidate) :
  List.length (formatResults l) = List.length l.
Proof. apply length_map. Qed.

Lemma length_pos_nonempty {A} (l : list A) :
  (0 <? List.length l)%nat = true -> l <> [].
Proof. destruct l; [discriminate|congruence]. Qed.

Lemma length_zero_empty {A} (l : list A) :
  (0 <? List.length l)%nat = false -> l = [].
Proof. destruct l; [reflexivity|discriminate]. Qed.

Section OrchestratorFacts.

Variable statements : Statements.

Lemma searchPostalCode_missing (country postalCode : option string)
      (fuzzy : bool) (tr : Trace) :
  negb (JS.truthy country) || negb (JS.truthy postalCode) = true ->
  searchPostalCode statements country postalCode fuzzy tr
  = (Resolved {| success := false;
                 error := Some "Country and postal code are required";
                 matchType := None;
                 query := None;
                 results := [] |},
     tr).
Proof. intro E. unfold searchPostalCode. now rewrite E. Qed.

(** X10. A lookup always resolves, and the only failure it reports is the
    validation failure: [success] is false exactly when the country or the
    postal code is missing or empty; a failing store never makes it false,
    and the answer "Internal search error" is never given. *)
Theorem lookup_fails_only_on_missing_input (country postalCode : option string)
        (fuzzy : bool) (tr : Trace) :
  exists res tr',
    searchPostalCode statements country postalCode fuzzy tr = (Resolved res, tr')
    /\ (success res = false
        <-> (country = None \/ country = Some "")
            \/ (postalCode = None \/ postalCode = Some ""))
    /\ error res <> Some "Internal search error".
Proof.
  destruct (arguments_cases country postalCode)
    as [[E Hmiss]|(c & p & -> & -> & Hc & Hp)].
  - eexists. eexists. split; [now apply searchPostalCode_missing|].
    split; [tauto|discriminate].
  - rewrite (searchPostalCode_run statements c p fuzzy tr Hc Hp). cbv zeta.
    assert (Hvalid : ~ ((Some c = None \/ Some c = Some "")
                        \/ (Some p = None \/ Some p = Some ""))).
    { intros [[H|H]|[H|H]]; congruence. }
    case_nonempty Ex.
    + eexists. eexists. split; [reflexivity|].
      split; [split; [discriminate|tauto]|discriminate].
    + destruct fuzzy.
      * case_nonempty Ef; eexists; eexists;
          (split; [reflexivity|]);
          (split; [split; [discriminate|tauto]|discriminate]).
      * eexists. eexists. split; [reflexivity|].
        split; [split; [discriminate|tauto]|discriminate].
Qed.

(** X11. The match type tells whether there are results: a successful
    lookup has an empty result list exactly when its match type is [none],
    and a failed one has no match type and no results. *)
Theorem match_type_tells_emptiness (country postalCode : option string)
        (fuzzy : bool) (tr : Trace) :
  exists res tr',
    searchPostalCode statements country postalCode fuzzy tr = (Resolved res, tr')
    /\ (success res = true ->
        (results res = [] <-> matchType res = Some MatchType.none))
    /\ (success res = false -> matchType res = None /\ results res = []).
Proof.
  destruct (arguments_cases country postalCode)
    as [[E Hmiss]|(c & p & -> & -> & Hc & Hp)].
  - eexists. eexists. split; [now apply searchPostalCode_missing|].
    split; [discriminate|now split].
  - rewrite (searchPostalCode_run statements c p fuzzy tr Hc Hp). cbv zeta.
    assert (Hfmt : forall l : list Candidate,
               (0 <? List.length l)%nat = true -> formatResults l <> []).
    { intros l Hl. apply length_pos_nonempty. now rewrite formatResults_length. }
    case_nonempty Ex.
    + eexists. eexists. split; [reflexivity|]. cbn [success results matchType].
      split; [|discriminate]. intros _.
      split; [intro H; now apply Hfmt in Ex|discriminate].
    + destruct fuzzy.
      * case_nonempty Ef; eexists; eexists;
          (split; [reflexivity|]); cbn [success results matchType];
          (split; [|discriminate]); intros _.
        -- split; [intro H; now apply Hfmt in Ef|discriminate].
        -- tauto.
      * eexists. eexists. split; [reflexivity|]. cbn [success results matchType].
        split; [tauto|discriminate].
Qed.

(** X12. A lookup that answers with [matchType = fuzzy] carries between 1
    and 20 results, and every one of them has a similarity score between 0.5
    and 1. *)
Theorem fuzzy_answers_are_bounded (country postalCode : option string)
        (fuzzy : bool) (tr : Trace) :
  exists res tr',
    searchPostalCode statements country postalCode fuzzy tr = (Resolved res, tr')
    /\ (matchType res = Some MatchType.fuzzy ->
        (1 <= List.length (results res) <= 20)%nat
        /\ Forall (fun f => (5 # 10) <= Formatted.similarity_score f
                            /\ Formatted.similarity_score f <= 1)
                  (results res)).
Proof.
  destruct (arguments_cases country postalCode)
    as [[E Hmiss]|(c & p & -> & -> & Hc & Hp)].
  - eexists. eexists. split; [now apply searchPostalCode_missing|]. discriminate.
  - rewrite (searchPostalCode_run statements c p fuzzy tr Hc Hp). cbv zeta.
    case_nonempty Ex.
    { eexists. eexists. split; [reflexivity|]. discriminate. }
    destruct fuzzy; [|eexists; eexists; split; [reflexivity|discriminate]].
    case_nonempty Ef;
      [|eexists; eexists; split; [reflexivity|cbv beta iota; discriminate]].
    eexists. eexists. split; [reflexivity|]. cbv beta iota. intros _.
    cbn [results]. rewrite formatResults_length. split.
    + split.
      * destruct (firstn maxResults _); [discriminate|simpl; lia].
      * apply firstn_le_length.
    + apply Forall_forall. intros f Hf.
      apply in_map_iff in Hf as (r & <- & Hr). cbn [Formatted.similarity_score].
      apply firstn_incl in Hr.
      apply (proj1 (sort_In compareCandidates _ _)) in Hr.
      pose proof (fold_absorb_clearsThreshold (JS.trim p)
                    (Design.candidates statements (JS.toUpperCase (JS.trim c))
                                       (JS.trim p))
                    ([], []) (Forall_nil _)) as Hall.
      pose proof (proj1 (Forall_forall _ _) Hall r Hr) as (s & Es & Hs).
      apply gather_from in Hr as [[]|(cand & _ & ->)].
      cbn [scored setScore similarity_score] in Es |- *.
      injection Es as <-. unfold scoreOrOne.
      destruct (Qeq_bool _ 0) eqn:Ez.
      * apply Qeq_bool_iff in Ez. lra.
      * split; [exact Hs|apply calculateSimilarity_le_1].
Qed.

(** X13. With fuzzy matching disabled a lookup calls the store at most
    once, and that call is the exact query. *)
Theorem exact_only_lookup_calls_once (country postalCode : option string)
        (tr : Trace) :
  exists res added,
    searchPostalCode statements country postalCode false tr
    = (Resolved res, tr ++ added)
    /\ (List.length added <= 1)%nat
    /\ forall call, In call added -> exists C P, call = FindExact C P.
Proof.
  destruct (arguments_cases country postalCode)
    as [[E Hmiss]|(c & p & -> & -> & Hc & Hp)].
  - eexists. exists []. rewrite app_nil_r.
    split; [now apply searchPostalCode_missing|].
    split; [simpl; lia|intros call []].
  - rewrite (searchPostalCode_run statements c p false tr Hc Hp). cbv zeta.
    case_nonempty Ex; eexists; eexists; (split; [reflexivity|]);
      (split; [simpl; lia|]); intros call [<-|[]]; eauto.
Qed.

(** X14. An outage of the store looks like a miss: when every query is
    rejected, a lookup with non-empty arguments still resolves with
    [success = true], [matchType = none] and no results, after at most four
    store calls. *)
Theorem store_outage_is_reported_as_no_match (c p : string) (fuzzy : bool)
        (tr : Trace) :
  c <> "" -> p <> "" ->
  (forall a b, exists e, findExact statements a b = Rejected e) ->
  (forall a b, exists e, findFuzzy statements a b = Rejected e) ->
  (forall a b, exists e, findByPlace statements a b = Rejected e) ->
  exists added,
    searchPostalCode statements (Some c) (Some p) fuzzy tr
    = (Resolved {| success := true;
                   error := None;
                   matchType := Some MatchType.none;
                   query := Some {| country := JS.toUpperCase (JS.trim c);
                                    postalCode := JS.trim p |};
                   results := [] |},
       tr ++ added)
    /\ (List.length added <= 4)%nat.
Proof.
  intros Hc Hp Hexact Hfuzzy Hplace.
  rewrite (searchPostalCode_run statements c p fuzzy tr Hc Hp). cbv zeta.
  set (C := JS.toUpperCase (JS.trim c)). set (P := JS.trim p).
  destruct (Hexact C P) as [e1 E1]. rewrite E1. cbn [Design.softRows List.length Nat.ltb Nat.leb].
  destruct fuzzy.
  2:{ eexists. split; [reflexivity|simpl; lia]. }
  assert (Hcand : Design.candidates statements C P = []).
  { unfold Design.candidates.
    destruct (Hfuzzy C P) as [e2 E2]. destruct (Hplace C P) as [e3 E3].
    rewrite E2, E3. cbn [Design.softRows app]. rewrite app_nil_r.
    destruct (Design.shrinkLengths (String.length P)) as [|len lens];
      [reflexivity|].
    cbn [Design.shrinkRows].
    destruct (Hfuzzy C (JS.prefix len P)) as [e4 E4]. now rewrite E4. }
  rewrite Hcand. cbn [fold_left fst sort fold_right firstn List.length Nat.ltb Nat.leb].
  rewrite <- app_assoc. eexists. split; [reflexivity|].
  unfold Design.fuzzyCalls. rewrite !length_app. cbn [List.length].
  destruct (Design.shrinkLengths (String.length P)) as [|len lens];
    [simpl; lia|].
  cbn [Design.shrinkCalls].
  destruct (Hfuzzy C (JS.prefix len P)) as [e4 E4]. rewrite E4. simpl. lia.
Qed.

End OrchestratorFacts.

(** ** Address composition *)

Lemma trimEnd_idempotent (s : string) : JS.trimEnd (JS.trimEnd s) = JS.trimEnd s.
Proof.
  induction s as [|c s IH]; [reflexivity|].
  cbn [JS.trimEnd]. destruct (JS.trimEnd s) as [|d u] eqn:E.
  - destruct (JS.is_space c) eqn:Ec; [reflexivity|].
    cbn [JS.trimEnd]. now rewrite Ec.
  - change (JS.trimEnd (String c (String d u)))
      with (match JS.trimEnd (String d u) with
            | EmptyString =>
                if JS.is_space c then EmptyString else String c EmptyString
            | String e v => String c (String e v)
            end).
    now rewrite IH.
Qed.

Lemma trimStart_head (s : string) :
  JS.trimStart s = ""
  \/ exists c t, JS.trimStart s = String c t /\ JS.is_space c = false.
Proof.
  induction s as [|c s IH]; [now left|].
  cbn [JS.trimStart]. destruct (JS.is_space c) eqn:Ec; [exact IH|].
  right. now exists c, s.
Qed.

Lemma trim_idempotent (s : string) : JS.trim (JS.trim s) = JS.trim s.
Proof.
  unfold JS.trim.
  destruct (trimStart_head s) as [->|(c & t & -> & Hc)]; [reflexivity|].
  assert (E : JS.trimStart (JS.trimEnd (String c t)) = JS.trimEnd (String c t)).
  { cbn [JS.trimEnd]. destruct (JS.trimEnd t); rewrite ?Hc;
      cbn [JS.trimStart]; now rewrite Hc. }
  rewrite E. apply trimEnd_idempotent.
Qed.

Lemma join_nonempty (sep p : string) (rest : list string) :
  p <> "" -> JS.join sep (p :: rest) <> "".
Proof.
  intro Hp. cbn [JS.join]. destruct rest; [exact Hp|].
  destruct p; [congruence|discriminate].
Qed.

Lemma combine_seq_nth {A} (l : list A) (k i : nat) (x : A) :
  In (i, x) (combine (seq k (List.length l)) l) ->
  (k <= i)%nat /\ nth_error l (i - k) = Some x.
Proof.
  revert k. induction l as [|a l IH]; intros k Hin; simpl in Hin; [contradiction|].
  destruct Hin as [E|Hin].
  - inversion E; subst. rewrite Nat.sub_diag. split; [lia|reflexivity].
  - apply IH in Hin as [Hk Hn]. split; [lia|].
    replace (i - k)%nat with (S (i - S k)) by lia. exact Hn.
Qed.

Lemma map_fst_combine {A B} (l : list A) (l' : list B) :
  List.length l = List.length l' -> map fst (combine l l') = l.
Proof.
  revert l'. induction l as [|a l IH]; intros [|b l'] H; simpl in *;
    try reflexivity; try discriminate.
  f_equal. apply IH. lia.
Qed.

Lemma filter_map_NoDup {A B} (g : A -> B) (keep : A -> bool) (l : list A) :
  NoDup (map g l) -> NoDup (map g (filter keep l)).
Proof.
  induction l as [|a l IH]; simpl; intro H; [constructor|].
  apply NoDup_cons_iff in H as [Ha Hl].
  destruct (keep a); simpl; [|now apply IH].
  constructor; [|now apply IH].
  intro Hin. apply Ha. apply in_map_iff in Hin as (b & Eb & Hb).
  apply filter_In in Hb as [Hb _]. apply in_map_iff. now exists b.
Qed.

Lemma findIndex_ext {A} (p q : A -> bool) (l : list A) :
  (forall x, p x = q x) -> findIndex p l = findIndex q l.
Proof.
  intro H. induction l as [|a l IH]; simpl; [reflexivity|].
  now rewrite H, IH.
Qed.

Lemma filterIndexed_incl {A} (keep : nat -> A -> bool) (l : list A) (x : A) :
  In x (filterIndexed keep l) -> In x l.
Proof.
  unfold filterIndexed. intro H.
  apply in_map_iff in H as ([i y] & <- & Hy).
  apply filter_In in Hy as [Hy _]. now apply in_combine_r in Hy.
Qed.

(** Keeping the elements that sit at the first position of their image
    under [f] leaves no two elements with the same image. *)
Lemma first_positions_NoDup {A} (f : A -> string) (l : list A) :
  NoDup (map f
           (filterIndexed
              (fun index part =>
                 match findIndex (fun p => (f p =? f part)%string) l with
                 | Some i => (i =? index)%nat
                 | None => false
                 end)
              l)).
Proof.
  unfold filterIndexed. rewrite map_map.
  match goal with
  | |- context [filter ?k _] => set (keep := k)
  end.
  set (pairs := filter keep (combine (seq 0 (List.length l)) l)).
  assert (Hfst : NoDup (map fst pairs)).
  { apply filter_map_NoDup.
    rewrite map_fst_combine by now rewrite length_seq.
    apply seq_NoDup. }
  apply NoDup_map_NoDup_ForallPairs; [|now apply NoDup_map_inv in Hfst].
  intros [i x] [j y] Hx Hy E. cbn [snd] in E.
  apply filter_In in Hx as [Hx Kx]. apply filter_In in Hy as [Hy Ky].
  apply combine_seq_nth in Hx as [_ Hx]. apply combine_seq_nth in Hy as [_ Hy].
  rewrite Nat.sub_0_r in Hx, Hy. subst keep. cbn [fst snd] in Kx, Ky.
  rewrite (findIndex_ext _ (fun p => (f p =? f y)%string)) in Kx
    by (intro; now rewrite E).
  destruct (findIndex _ l) as [k|]; [|discriminate].
  apply Nat.eqb_eq in Kx, Ky. subst i j. congruence.
Qed.

Lemma cleaned_parts (parts : list string) :
  let trimmed :=
    map JS.trim
        (filter (fun part =>
                   negb (part =? "")%string
                   && (0 <? String.length (JS.trim part))%nat)
                parts) in
  let cleanParts :=
    filterIndexed
      (fun index part =>
         match findIndex
                 (fun p => (JS.toLowerCase p =? JS.toLowerCase part)%string)
                 trimmed with
         | Some i => (i =? index)%nat
         | None => false
         end)
      trimmed in
  NoDup (map JS.toLowerCase cleanParts)
  /\ Forall (fun p => p <> "" /\ JS.trim p = p) cleanParts.
Proof.
  intros trimmed cleanParts. split; [apply first_positions_NoDup|].
  apply Forall_forall. intros p Hp.
  apply filterIndexed_incl in Hp. subst trimmed.
  apply in_map_iff in Hp as (part & <- & Hpart).
  apply filter_In in Hpart as [_ Hpart].
  apply andb_true_iff in Hpart as [_ Hlen]. apply Nat.ltb_lt in Hlen.
  split; [|apply trim_idempotent].
  intro E. rewrite E in Hlen. simpl in Hlen. lia.
Qed.

(** X15. The composed address is never the empty string. *)
Theorem full_address_is_never_empty (result : Candidate) :
  constructFullAddress result <> "".
Proof.
  unfold constructFullAddress. cbv zeta.
  match goal with
  | |- context [filter _ ?p] => generalize p
  end.
  intro parts. destruct (cleaned_parts parts) as [_ Hall]. cbv zeta in Hall.
  destruct (filterIndexed _ _) as [|p rest].
  - cbn [List.length Nat.ltb Nat.leb].
    destruct (String.eqb_spec (postal_code result) ""); cbn [negb];
      [discriminate|assumption].
  - cbn [List.length Nat.ltb Nat.leb]. apply join_nonempty.
    apply Forall_inv in Hall. tauto.
Qed.

Lemma nonempty_length_pos (s : string) : s <> "" -> (0 <? String.length s)%nat = true.
Proof. destruct s; [congruence|reflexivity]. Qed.

Lemma constructFullAddress_stages (result : Candidate) :
  constructFullAddress result
  = match cleanParts (addressParts result) with
    | [] => if (postal_code result =? "")%string
            then "Address not available"
            else postal_code result
    | _ => JS.join ", " (cleanParts (addressParts result))
    end.
Proof.
  change (constructFullAddress result)
    with (if (0 <? List.length (cleanParts (addressParts result)))%nat
          then JS.join ", " (cleanParts (addressParts result))
          else if negb (postal_code result =? "")%string
               then postal_code result
               else "Address not available").
  destruct (cleanParts (addressParts result)) as [|p rest].
  - cbn [List.length Nat.ltb Nat.leb].
    now destruct (postal_code result =? "")%string.
  - reflexivity.
Qed.

Lemma findIndex_some {A} (p : A -> bool) (l : list A) (x : A) :
  In x l -> p x = true ->
  exists i y, findIndex p l = Some i /\ nth_error l i = Some y /\ p y = true.
Proof.
  induction l as [|a l IH]; intros Hin Hp; [contradiction|].
  cbn [findIndex]. destruct (p a) eqn:Ea.
  - exists 0%nat, a. now repeat split.
  - destruct Hin as [->|Hin]; [congruence|].
    destruct (IH Hin Hp) as (i & y & -> & Hy & Hpy).
    exists (S i), y. now repeat split.
Qed.

Lemma combine_seq_In {A} (l : list A) (k i : nat) (x : A) :
  nth_error l i = Some x -> In ((k + i)%nat, x) (combine (seq k (List.length l)) l).
Proof.
  revert k i. induction l as [|a l IH]; intros k [|i] H; simpl in *;
    try discriminate.
  - left. injection H as ->. f_equal. lia.
  - right. replace (k + S i)%nat with (S k + i)%nat by lia. now apply IH.
Qed.

(** Every element has an element with the same image under [f] among
    those that sit at the first position of their image. *)
Lemma first_positions_cover {A} (f : A -> string) (l : list A) (x : A) :
  In x l ->
  exists y,
    In y (filterIndexed
            (fun index part =>
               match findIndex (fun p => (f p =? f part)%string) l with
               | Some i => (i =? index)%nat
               | None => false
               end)
            l)
    /\ f y = f x.
Proof.
  intro Hin.
  destruct (findIndex_some (fun p => (f p =? f x)%string) l x Hin
              (String.eqb_refl _)) as (i & y & Ei & Hy & Hfy).
  apply String.eqb_eq in Hfy. exists y. split; [|exact Hfy].
  unfold filterIndexed. apply in_map_iff. exists (i, y). split; [reflexivity|].
  apply filter_In. split; [exact (combine_seq_In l 0 i y Hy)|].
  cbn [fst snd].
  rewrite (findIndex_ext _ (fun p => (f p =? f x)%string))
    by (intro; now rewrite Hfy).
  rewrite Ei. apply Nat.eqb_refl.
Qed.

(** X16. For a record of plain ASCII text, the composed address is the
    [", "]-joined list of the cleaned parts, and only when none is left the
    bare postal code or, failing that, "Address not available".  The cleaned
    parts are the parts pushed for the record's country, trimmed: each one
    is non-empty and carries no blank at either end, no two of them are
    equal up to letter case, and every pushed part that is not blank is
    there up to letter case. *)
Theorem full_address_fragments (result : Candidate) :
  plainText result ->
  let fragments := cleanParts (addressParts result) in
  constructFullAddress result
  = match fragments with
    | [] => if (postal_code result =? "")%string
            then "Address not available"
            else postal_code result
    | _ => JS.join ", " fragments
    end
  /\ NoDup (map JS.toLowerCase fragments)
  /\ Forall (fun p => p <> "" /\ JS.trim p = p) fragments
  /\ (forall p, In p fragments ->
      exists part, In part (addressParts result) /\ p = JS.trim part)
  /\ (forall part, In part (addressParts result) -> JS.trim part <> "" ->
      exists p, In p fragments
                /\ JS.toLowerCase p = JS.toLowerCase (JS.trim part)).
Proof.
  intros _ fragments. subst fragments. split; [apply constructFullAddress_stages|].
  destruct (cleaned_parts (addressParts result)) as [Hnd Hall].
  cbv zeta in Hnd, Hall. fold (cleanParts (addressParts result)) in Hnd, Hall.
  split; [exact Hnd|]. split; [exact Hall|]. split.
  - intros p Hp. apply filterIndexed_incl in Hp.
    apply in_map_iff in Hp as (part & <- & Hpart).
    apply filter_In in Hpart as [Hpart _]. now exists part.
  - intros part Hpart Hne.
    apply (first_positions_cover JS.toLowerCase). apply in_map.
    apply filter_In. split; [exact Hpart|].
    apply andb_true_iff. split.
    + destruct part; [now elim Hne|reflexivity].
    + now apply nonempty_length_pos.
Qed.

(** X17. A record without place name and without region names or codes
    gets its postal code as address, whatever the country; when the postal
    code is empty as well, the address is "Address not available". *)
Theorem bare_record_address (result : Candidate) :
  JS.truthy (place_name result) = false ->
  JS.truthy (admin_name1 result) = false ->
  JS.truthy (admin_code1 result) = false ->
  JS.truthy (admin_name2 result) = false ->
  JS.trim (postal_code result) = postal_code result ->
  constructFullAddress result
  = if (postal_code result =? "")%string
    then "Address not available"
    else postal_code result.
Proof.
  intros Hplace Hname1 Hcode1 Hname2 Htrim.
  unfold constructFullAddress. cbv zeta.
  match goal with
  | |- context [filter _ ?p] => set (parts := p)
  end.
  set (pc := postal_code result) in *.
  assert (Hparts : parts = [] \/ parts = [pc]).
  { subst parts. unfold regionLine, unlessPlace.
    rewrite Hplace, Hname1, Hcode1, Hname2. cbn [andb negb orb app removelast].
    repeat match goal with
           | |- context [if ?b then _ else _] => destruct b
           end; auto. }
  clearbody parts. destruct Hparts as [-> | ->].
  - cbn. now destruct (pc =? "")%string.
  - cbn [filter]. rewrite Htrim.
    destruct (String.eqb_spec pc "") as [Hpc|Hpc].
    + cbn. reflexivity.
    + rewrite (nonempty_length_pos pc Hpc). cbn [negb andb map]. rewrite Htrim.
      unfold filterIndexed. cbn [List.length seq combine filter fst snd findIndex].
      rewrite String.eqb_refl. reflexivity.
Qed.

(** ** Batch lookups *)

Section BatchFacts.

Variable statements : Statements.

(** A lookup resolves with the same result and adds the same store calls
    whatever the trace it starts from. *)
Lemma searchPostalCode_frame (country postalCode : option string) (fuzzy : bool) :
  exists res added,
    forall tr,
      searchPostalCode statements country postalCode fuzzy tr
      = (Resolved res, tr ++ added).
Proof.
  destruct (arguments_cases country postalCode)
    as [[E Hmiss]|(c & p & -> & -> & Hc & Hp)].
  - eexists. exists []. intro tr. rewrite app_nil_r.
    now apply searchPostalCode_missing.
  - set (C := JS.toUpperCase (JS.trim c)). set (P := JS.trim p).
    destruct (0 <? List.length (Design.softRows (findExact statements C P)))%nat
      eqn:Ex.
    + eexists. exists [FindExact C P]. intro tr.
      rewrite (searchPostalCode_run statements c p fuzzy tr Hc Hp). cbv zeta.
      fold C P. rewrite Ex. reflexivity.
    + destruct fuzzy.
      * eexists. exists ([FindExact C P] ++ Design.fuzzyCalls statements C P).
        intro tr.
        rewrite (searchPostalCode_run statements c p true tr Hc Hp). cbv zeta.
        fold C P. rewrite Ex, app_assoc. reflexivity.
      * eexists. exists [FindExact C P]. intro tr.
        rewrite (searchPostalCode_run statements c p false tr Hc Hp). cbv zeta.
        fold C P. rewrite Ex. reflexivity.
Qed.

(** On strings and absent arguments the lookup on property values is the
    lookup of the routes. *)
Lemma searchPostalCodeValue_text (country postalCode : option string)
      (fuzzy : bool) :
  searchPostalCodeValue statements (Json.ofText country) (Json.ofText postalCode)
                        fuzzy
  = searchPostalCode statements country postalCode fuzzy.
Proof. destruct country, postalCode; reflexivity. Qed.

Lemma searchPostalCodeValue_missing (country postalCode : option Json.t)
      (fuzzy : bool) (tr : Trace) :
  negb (Json.truthy country) || negb (Json.truthy postalCode) = true ->
  searchPostalCodeValue statements country postalCode fuzzy tr
  = (Resolved {| success := false;
                 error := Some "Country and postal code are required";
                 matchType := None;
                 query := None;
                 results := [] |},
     tr).
Proof. intro E. unfold searchPostalCodeValue. now rewrite E. Qed.

(** A truthy argument that is no string has no [trim]: the call throws
    before any store call, and the lookup reports an internal error. *)
Lemma searchPostalCodeValue_no_trim (country postalCode : option Json.t)
      (fuzzy : bool) (tr : Trace) :
  Json.truthy country = true -> Json.truthy postalCode = true ->
  Json.isText country && Json.isText postalCode = false ->
  searchPostalCodeValue statements country postalCode fuzzy tr
  = (Resolved {| success := false;
                 error := Some "Internal search error";
                 matchType := None;
                 query := None;
                 results := [] |},
     tr).
Proof.
  intros Hc Hp Htext. unfold searchPostalCodeValue. rewrite Hc, Hp.
  cbn [negb orb].
  destruct country as [[]|]; try discriminate Hc; try reflexivity;
    destruct postalCode as [[]|]; try discriminate Hp; try discriminate Htext;
    reflexivity.
Qed.

Lemma isText_ofText (v : option Json.t) :
  Json.isText v = true -> exists s, v = Json.ofText (Some s).
Proof. destruct v as [[]|]; try discriminate. intros _. now eexists. Qed.

Lemma searchPostalCodeValue_frame (country postalCode : option Json.t)
      (fuzzy : bool) :
  exists res added,
    forall tr,
      searchPostalCodeValue statements country postalCode fuzzy tr
      = (Resolved res, tr ++ added).
Proof.
  destruct (negb (Json.truthy country) || negb (Json.truthy postalCode)) eqn:E.
  { eexists. exists []. intro tr. rewrite app_nil_r.
    now apply searchPostalCodeValue_missing. }
  apply orb_false_iff in E as [Hc Hp].
  apply negb_false_iff in Hc, Hp.
  destruct (Json.isText country && Json.isText postalCode) eqn:Htext.
  - apply andb_true_iff in Htext as [Tc Tp].
    apply isText_ofText in Tc as [c ->]. apply isText_ofText in Tp as [p ->].
    destruct (searchPostalCode_frame (Some c) (Some p) fuzzy)
      as (res & added & Hrun).
    exists res, added. intro tr. rewrite searchPostalCodeValue_text. apply Hrun.
  - eexists. exists []. intro tr. rewrite app_nil_r.
    now apply searchPostalCodeValue_no_trim.
Qed.

(** The entry of a batch answer that belongs to a search. *)
Lemma searchMultipleFrom_spec (objects : list Search.t) :
  exists entries added,
    (forall results tr,
        searchMultipleFrom statements (map Some objects) results tr
        = (Resolved (results ++ entries), tr ++ added))
    /\ Forall2
         (fun search entry =>
            exists res,
              (forall tr, exists tr',
                  searchPostalCodeValue statements (Search.country search)
                                        (Search.postalCode search)
                                        (fuzzyUnlessFalse search) tr
                  = (Resolved res, tr'))
              /\ entry = batchEntry search res)
         objects entries.
Proof.
  induction objects as [|search rest IH].
  - exists [], []. split; [|constructor].
    intros results tr. now rewrite !app_nil_r.
  - destruct IH as (entries & added & Hrun & Hall).
    destruct (searchPostalCodeValue_frame (Search.country search)
                (Search.postalCode search) (fuzzyUnlessFalse search))
      as (res & added1 & Hone).
    exists (batchEntry search res :: entries), (added1 ++ added).
    split.
    + intros results tr. cbn [map searchMultipleFrom]. unfold bind.
      rewrite Hone, Hrun, <- !app_assoc. reflexivity.
    + constructor; [|exact Hall].
      exists res. split; [|reflexivity].
      intro tr. eexists. apply Hone.
Qed.

(** The element [null] makes the loop throw. *)
Lemma searchMultipleFrom_null (searches : list (option Search.t)) :
  In None searches ->
  forall results tr,
    exists tr',
      searchMultipleFrom statements searches results tr
      = (Rejected "TypeError", tr').
Proof.
  induction searches as [|[search|] rest IH]; intros Hin results tr.
  - contradiction.
  - destruct Hin as [E|Hin]; [discriminate|].
    destruct (searchPostalCodeValue_frame (Search.country search)
                (Search.postalCode search) (fuzzyUnlessFalse search))
      as (res & added & Hone).
    cbn [searchMultipleFrom]. unfold bind. rewrite Hone. now apply IH.
  - now exists tr.
Qed.



(** X18. A batch rejects when one of its elements is [null], since the
    loop reads [search.country] outside any [try].  A batch without such an
    element never rejects and answers every search: the entries correspond
    one to one, in order, to the searches, and each entry is built from what
    a single lookup resolves with for that search, with fuzzy matching on
    unless the search says [fuzzy: false]. *)
Theorem batch_answers_every_search (searches : list (option Search.t))
        (tr : Trace) :
  (In None searches ->
   exists e tr', searchMultiple statements searches tr = (Rejected e, tr'))
  /\ (forall objects,
         searches = map Some objects ->
         exists entries tr',
           searchMultiple statements searches tr = (Resolved entries, tr')
           /\ List.length entries = List.length searches
           /\ Forall2
                (fun search entry =>
                   exists res,
                     (forall tr0, exists tr1,
                         searchPostalCodeValue statements (Search.country search)
                                               (Search.postalCode search)
                                               (fuzzyUnlessFalse search) tr0
                         = (Resolved res, tr1))
                     /\ entry = batchEntry search res)
                objects entries).
Proof.
  split.
  - intro Hin. destruct (searchMultipleFrom_null searches Hin [] tr) as [tr' E].
    now exists "TypeError", tr'.
  - intros objects ->.
    destruct (searchMultipleFrom_spec objects) as (entries & added & Hrun & Hall).
    exists entries, (tr ++ added). split; [apply (Hrun [] tr)|].
    split; [|exact Hall].
    rewrite length_map. symmetry. eapply Forall2_length. exact Hall.
Qed.

(** X19. In the answer to a batch of objects, an entry whose search lacks
    a country or a postal code (the value is absent or falsy) echoes the
    search as it was sent and carries the validation error; an entry whose
    country and postal code are truthy but not both strings echoes the search
    as well and carries "Internal search error"; an entry whose country and
    postal code are non-empty strings succeeds and carries the normalised
    pair in place of the search, because the spread of the result overrides
    [query] only when the result has one. *)
Theorem batch_entries_echo_the_query (objects : list Search.t) (tr : Trace) :
  exists entries tr',
    searchMultiple statements (map Some objects) tr = (Resolved entries, tr')
    /\ Forall2
         (fun search entry =>
            (Json.truthy (Search.country search) = false
             \/ Json.truthy (Search.postalCode search) = false ->
             BatchEntry.query entry = BatchEntry.Raw search
             /\ BatchEntry.success entry = false
             /\ BatchEntry.error entry
                = Some "Country and postal code are required")
            /\ (Json.truthy (Search.country search) = true ->
                Json.truthy (Search.postalCode search) = true ->
                Json.isText (Search.country search)
                && Json.isText (Search.postalCode search) = false ->
                BatchEntry.query entry = BatchEntry.Raw search
                /\ BatchEntry.success entry = false
                /\ BatchEntry.error entry = Some "Internal search error")
            /\ (forall c p,
                   Search.country search = Some (Json.Text c) ->
                   Search.postalCode search = Some (Json.Text p) ->
                   c <> "" -> p <> "" ->
                   BatchEntry.query entry
                   = BatchEntry.Normalized
                       {| country := JS.toUpperCase (JS.trim c);
                          postalCode := JS.trim p |}
                   /\ BatchEntry.success entry = true
                   /\ BatchEntry.error entry = None))
         objects entries.
Proof.
  destruct (searchMultipleFrom_spec objects) as (entries & added & Hrun & Hall).
  exists entries, (tr ++ added). split; [apply (Hrun [] tr)|].
  clear Hrun. induction Hall as [|search entry rest entries' Hone _ IH];
    constructor; [|exact IH].
  destruct Hone as (res & Hres & ->).
  destruct (Hres []) as [tr1 Hres0]. split; [|split].
  - intro Hmiss.
    assert (E : negb (Json.truthy (Search.country search))
                || negb (Json.truthy (Search.postalCode search)) = true).
    { destruct Hmiss as [-> | ->]; [reflexivity|apply orb_true_r]. }
    rewrite (searchPostalCodeValue_missing _ _ _ [] E) in Hres0.
    injection Hres0 as <- _. repeat split; reflexivity.
  - intros Hc Hp Htext.
    rewrite (searchPostalCodeValue_no_trim _ _ _ [] Hc Hp Htext) in Hres0.
    injection Hres0 as <- _. repeat split; reflexivity.
  - intros c p Ec Ep Hc Hp. rewrite Ec, Ep in Hres0.
    change (Some (Json.Text c)) with (Json.ofText (Some c)) in Hres0.
    change (Some (Json.Text p)) with (Json.ofText (Some p)) in Hres0.
    rewrite searchPostalCodeValue_text in Hres0.
    rewrite (searchPostalCode_run statements c p _ [] Hc Hp) in Hres0.
    cbv zeta in Hres0.
    repeat match type of Hres0 with
           | context [if ?b then _ else _] => destruct b
           end;
      injection Hres0 as <- _; repeat split; reflexivity.
Qed.

End BatchFacts.

(** ** Suggestions *)

Lemma collect_step (limit : Z) (uniqueSuggestions : list Suggestion.t)
      (seen : list string) (c : Candidate) :
  collect limit (uniqueSuggestions, seen) c
  = if negb (existsb (String.eqb (suggestionKey c)) seen)
       && (Z.of_nat (List.length uniqueSuggestions) <? limit)%Z
    then (uniqueSuggestions ++ [toSuggestion c], suggestionKey c :: seen)
    else (uniqueSuggestions, seen).
Proof. reflexivity. Qed.

Section Collecting.

Variable limit : Z.

Local Abbreviation collectAll := (fold_left (collect limit)).

(** The loop state: the seen keys are the keys of the suggestions held,
    no key is held twice, and the limit is respected. *)
Lemma collect_invariant (incoming : list Candidate) (state : Collected) :
  (NoDup (map keyOfSuggestion (fst state))
   /\ (forall k, In k (snd state) <-> In k (map keyOfSuggestion (fst state)))
   /\ (Z.of_nat (List.length (fst state)) <= Z.max 0 limit)%Z) ->
  NoDup (map keyOfSuggestion (fst (collectAll incoming state)))
  /\ (forall k, In k (snd (collectAll incoming state))
                <-> In k (map keyOfSuggestion (fst (collectAll incoming state))))
  /\ (Z.of_nat (List.length (fst (collectAll incoming state))) <= Z.max 0 limit)%Z.
Proof.
  revert state. induction incoming as [|c incoming IH]; intros [uniq seen] Hinv.
  - exact Hinv.
  - cbn [fold_left]. apply IH. rewrite collect_step.
    destruct (existsb _ seen) eqn:Eseen; cbn [negb andb]; [exact Hinv|].
    destruct (Z.ltb_spec (Z.of_nat (List.length uniq)) limit) as [Hlt|Hge];
      [|exact Hinv].
    destruct Hinv as (Hnd & Hseen & Hlen). cbn [fst snd] in *.
    assert (Hnew : ~ In (suggestionKey c) seen).
    { intro H. apply seen_spec in H. congruence. }
    rewrite map_app. cbn [map].
    change (keyOfSuggestion (toSuggestion c)) with (suggestionKey c).
    split; [|split].
    + apply NoDup_app; [exact Hnd|repeat constructor; intros []|].
      intros k Hk [<-|[]]. apply Hnew. now apply Hseen.
    + intro k. rewrite in_app_iff. cbn [In]. rewrite Hseen. tauto.
    + rewrite length_app. cbn [List.length]. lia.
Qed.

Lemma collect_from (incoming : list Candidate) (state : Collected)
      (s : Suggestion.t) :
  In s (fst (collectAll incoming state)) ->
  In s (fst state) \/ exists c, In c incoming /\ s = toSuggestion c.
Proof.
  revert state. induction incoming as [|c incoming IH]; intros [uniq seen] Hin.
  - now left.
  - cbn [fold_left] in Hin. rewrite collect_step in Hin.
    destruct (_ && _);
      (destruct (IH _ Hin) as [H|(c' & Hc' & E)];
       [|right; exists c'; split; [now right|exact E]]).
    + cbn [fst] in H. apply in_app_or in H as [H|[<-|[]]]; [now left|].
      right. exists c. split; [now left|reflexivity].
    + now left.
Qed.

Lemma collect_grows (incoming : list Candidate) (state : Collected) :
  (List.length (fst state) <= List.length (fst (collectAll incoming state)))%nat
  /\ incl (snd state) (snd (collectAll incoming state)).
Proof.
  revert state. induction incoming as [|c incoming IH]; intros [uniq seen].
  - cbn [fold_left]. split; [lia|apply incl_refl].
  - cbn [fold_left]. rewrite collect_step.
    destruct (_ && _); [|apply IH].
    destruct (IH (uniq ++ [toSuggestion c], suggestionKey c :: seen)) as [Hlen Hincl].
    cbn [fst snd] in *. rewrite length_app in Hlen. cbn [List.length] in Hlen.
    split; [lia|]. intros k Hk. apply Hincl. now right.
Qed.

Lemma collect_complete (incoming : list Candidate) (state : Collected)
      (c : Candidate) :
  (Z.of_nat (List.length (fst (collectAll incoming state))) < limit)%Z ->
  In c incoming ->
  In (suggestionKey c) (snd (collectAll incoming state)).
Proof.
  revert state. induction incoming as [|c0 incoming IH]; intros [uniq seen] Hlen Hin.
  - contradiction.
  - cbn [fold_left] in *. destruct Hin as [->|Hin]; [|now apply IH].
    clear IH. rewrite collect_step in *.
    destruct (existsb _ seen) eqn:Eseen; cbn [negb andb] in *.
    + apply (proj2 (collect_grows incoming (uniq, seen))). cbn [snd].
      now apply seen_spec.
    + destruct (Z.ltb_spec (Z.of_nat (List.length uniq)) limit) as [Hlt|Hge].
      * apply (proj2 (collect_grows incoming _)). now left.
      * pose proof (proj1 (collect_grows incoming (uniq, seen))) as Hmono.
        cbn [fst] in Hmono. lia.
Qed.

End Collecting.

Section SuggestFacts.

Variable statements : Statements.

Lemma suggest_run (c q : string) (limit : option Z) (tr : Trace) :
  c <> "" -> (2 <= String.length q)%nat ->
  let C := JS.toUpperCase (JS.trim c) in
  let Q := JS.trim q in
  let n := match limit with Some n => n | None => 10%Z end in
  suggest statements (Some c) (Some q) limit tr
  = (Resolved
       match findFuzzy statements C Q with
       | Resolved rows =>
           {| SuggestResult.success := true;
              SuggestResult.error := None;
              SuggestResult.query :=
                Some {| SuggestResult.country := C; SuggestResult.partial := Q |};
              SuggestResult.suggestions :=
                fst (fold_left (collect n) (map fromStore rows) ([], [])) |}
       | Rejected _ =>
           {| SuggestResult.success := false;
              SuggestResult.error := Some "Internal suggestion error";
              SuggestResult.query := None;
              SuggestResult.suggestions := [] |}
       end,
     tr ++ [FindFuzzy C Q]).
Proof.
  intros Hc Hq C Q n. unfold suggest.
  rewrite (truthy_Some c Hc).
  assert (Hq' : q <> "") by (intros ->; simpl in Hq; lia).
  rewrite (truthy_Some q Hq'). cbn [negb orb lengthOf].
  destruct (Nat.ltb_spec (String.length q) 2) as [Hlt|_]; [lia|].
  unfold try_catch, trimOf, awaitRows, await_call. unfold bind, ret.
  fold C Q. destruct (findFuzzy statements C Q); reflexivity.
Qed.

(** X20. Suggestions are refused without any store call when the country
    is missing or empty, when the partial code is missing, or when the
    partial code as passed has fewer than two characters. *)
Theorem suggest_refuses_short_input (country partialPostalCode : option string)
        (limit : option Z) (tr : Trace) :
  (country = None \/ country = Some "")
  \/ partialPostalCode = None
  \/ (exists q, partialPostalCode = Some q /\ (String.length q < 2)%nat) ->
  suggest statements country partialPostalCode limit tr
  = (Resolved
       {| SuggestResult.success := false;
          SuggestResult.error :=
            Some "Country and at least 2 characters of postal code required";
          SuggestResult.query := None;
          SuggestResult.suggestions := [] |},
     tr).
Proof.
  intro H. unfold suggest.
  assert (E : negb (JS.truthy country) || negb (JS.truthy partialPostalCode)
              || (lengthOf partialPostalCode <? 2)%nat = true).
  { destruct H as [[-> | ->] | [-> | (q & -> & Hq)]].
    - reflexivity.
    - reflexivity.
    - cbn [JS.truthy negb]. now rewrite orb_true_r.
    - cbn [lengthOf]. apply Nat.ltb_lt in Hq. rewrite Hq. apply orb_true_r. }
  now rewrite E.
Qed.

(** X21. When the store answers, the suggestions number at most the limit
    (10 when none is given), no two of them share the key
    [postal_code:place_name], and each is the projection of a row the store
    returned for the trimmed partial code. *)
Theorem suggestions_are_limited_and_distinct (c q : string) (limit : option Z)
        (tr : Trace) (rows : list PostalRecord) :
  c <> "" -> (2 <= String.length q)%nat ->
  findFuzzy statements (JS.toUpperCase (JS.trim c)) (JS.trim q) = Resolved rows ->
  exists res,
    suggest statements (Some c) (Some q) limit tr
    = (Resolved res,
       tr ++ [FindFuzzy (JS.toUpperCase (JS.trim c)) (JS.trim q)])
    /\ SuggestResult.success res = true
    /\ (Z.of_nat (List.length (SuggestResult.suggestions res))
        <= Z.max 0 (match limit with Some n => n | None => 10 end))%Z
    /\ NoDup (map keyOfSuggestion (SuggestResult.suggestions res))
    /\ forall s, In s (SuggestResult.suggestions res) ->
                 exists row, In row rows /\ s = toSuggestion (fromStore row).
Proof.
  intros Hc Hq Hrows. rewrite (suggest_run c q limit tr Hc Hq). cbv zeta.
  rewrite Hrows. eexists. split; [reflexivity|].
  cbn [SuggestResult.success SuggestResult.suggestions].
  split; [reflexivity|].
  destruct (collect_invariant (match limit with Some n => n | None => 10%Z end)
              (map fromStore rows) ([], [])) as (Hnd & _ & Hlen).
  { cbn [fst snd map List.length]. split; [constructor|]. split; [tauto|lia]. }
  split; [exact Hlen|]. split; [exact Hnd|].
  intros s Hs. apply collect_from in Hs as [[]|(cand & Hcand & ->)].
  apply in_map_iff in Hcand as (row & <- & Hrow). now exists row.
Qed.

(** X22. Suggestions are not filtered by similarity: when fewer
    suggestions than the limit are returned, every row of the store's
    answer is represented among them by its key. *)
Theorem suggestions_keep_every_key_below_the_limit (c q : string)
        (limit : option Z) (tr tr' : Trace) (rows : list PostalRecord)
        (res : SuggestResult.t) (row : PostalRecord) :
  c <> "" -> (2 <= String.length q)%nat ->
  findFuzzy statements (JS.toUpperCase (JS.trim c)) (JS.trim q) = Resolved rows ->
  suggest statements (Some c) (Some q) limit tr = (Resolved res, tr') ->
  (Z.of_nat (List.length (SuggestResult.suggestions res))
   < match limit with Some n => n | None => 10 end)%Z ->
  In row rows ->
  exists s, In s (SuggestResult.suggestions res)
            /\ keyOfSuggestion s = suggestionKey (fromStore row).
Proof.
  intros Hc Hq Hrows Hrun Hlen Hrow.
  rewrite (suggest_run c q limit tr Hc Hq) in Hrun. cbv zeta in Hrun.
  rewrite Hrows in Hrun. injection Hrun as <- _.
  cbn [SuggestResult.suggestions] in *.
  set (n := match limit with Some n => n | None => 10%Z end) in *.
  pose proof (collect_complete n (map fromStore rows) ([], []) (fromStore row)
                Hlen (in_map fromStore _ _ Hrow)) as Hseen.
  destruct (collect_invariant n (map fromStore rows) ([], [])) as (_ & Hkeys & _).
  { cbn [fst snd map List.length]. split; [constructor|]. split; [tauto|lia]. }
  apply Hkeys, in_map_iff in Hseen as (s & Es & Hs). now exists s.
Qed.

(** X23. Unlike a lookup, a suggestion request does not survive a store
    failure: when the fuzzy-pattern query is rejected, it answers
    [success = false] with "Internal suggestion error" and no
    suggestions. *)
Theorem suggest_fails_when_the_store_fails (c q : string) (limit : option Z)
        (tr : Trace) :
  c <> "" -> (2 <= String.length q)%nat ->
  (exists e,
      findFuzzy statements (JS.toUpperCase (JS.trim c)) (JS.trim q) = Rejected e) ->
  suggest statements (Some c) (Some q) limit tr
  = (Resolved
       {| SuggestResult.success := false;
          SuggestResult.error := Some "Internal suggestion error";
          SuggestResult.query := None;
          SuggestResult.suggestions := [] |},
     tr ++ [FindFuzzy (JS.toUpperCase (JS.trim c)) (JS.trim q)]).
Proof.
  intros Hc Hq [e He]. rewrite (suggest_run c q limit tr Hc Hq). cbv zeta.
  now rewrite He.
Qed.

End SuggestFacts.

(** ** The routes *)

Section RouteFacts.

Variable statements : Statements.

Lemma lookupRoute_run (c p : string) (fuzzy : option string) (tr : Trace) :
  c <> "" -> p <> "" ->
  forall res tr',
    searchPostalCode statements (Some c) (Some p) (enableFuzzy fuzzy) tr
    = (Resolved res, tr') ->
    lookupRoute statements (Some c) (Some p) fuzzy tr
    = (Resolved ((if success res
                  then if (0 <? List.length (results res))%nat then 200 else 404
                  else 500)%nat,
                 LookupAnswer res),
       tr').
Proof.
  intros Hc Hp res tr' Hrun. unfold lookupRoute.
  rewrite (truthy_Some c Hc), (truthy_Some p Hp). cbn [negb orb].
  unfold try_catch, bind. rewrite Hrun. reflexivity.
Qed.

Lemma searchPostalCode_valid_shape (c p : string) (fuzzy : bool) (tr : Trace) :
  c <> "" -> p <> "" ->
  exists res tr',
    searchPostalCode statements (Some c) (Some p) fuzzy tr = (Resolved res, tr')
    /\ success res = true
    /\ (((0 <? List.length (results res))%nat = true /\ results res <> [])
        \/ ((0 <? List.length (results res))%nat = false
            /\ results res = [] /\ matchType res = Some MatchType.none)).
Proof.
  intros Hc Hp.
  rewrite (searchPostalCode_run statements c p fuzzy tr Hc Hp). cbv zeta.
  assert (Hfmt : forall l : list Candidate,
             (0 <? List.length l)%nat = true ->
             (0 <? List.length (formatResults l))%nat = true
             /\ formatResults l <> []).
  { intros l Hl. rewrite <- (formatResults_length l) in Hl.
    split; [exact Hl|now apply length_pos_nonempty]. }
  case_nonempty Ex.
  { eexists. eexists. split; [reflexivity|]. split; [reflexivity|].
    left. now apply Hfmt. }
  destruct fuzzy.
  - case_nonempty Ef; eexists; eexists; (split; [reflexivity|]);
      (split; [reflexivity|]).
    + left. now apply Hfmt.
    + right. repeat split.
  - eexists. eexists. split; [reflexivity|]. split; [reflexivity|].
    right. repeat split.
Qed.

(** X24. [GET /lookup] with string parameters answers 400, 200 or 404 and
    never 500, also when the store fails: 400 exactly when the country or
    the postal code is missing or empty, and then without any store call;
    200 exactly when the body carries at least one result; and a 404 body
    is a successful lookup with [matchType = none]. *)
Theorem lookup_route_status (country postalCode fuzzy : option string)
        (tr : Trace) :
  exists status body tr',
    lookupRoute statements country postalCode fuzzy tr
    = (Resolved (status, body), tr')
    /\ (status = 400 \/ status = 200 \/ status = 404)%nat
    /\ (status = 400%nat <-> missingInput country postalCode)
    /\ (status = 400%nat -> body = LookupMissing /\ tr' = tr)
    /\ (status = 200%nat <->
        exists res, body = LookupAnswer res /\ results res <> [])
    /\ (status = 404%nat ->
        exists res,
          body = LookupAnswer res /\ success res = true
          /\ matchType res = Some MatchType.none /\ results res = []).
Proof.
  destruct (arguments_cases country postalCode)
    as [[E Hmiss]|(c & p & -> & -> & Hc & Hp)].
  - exists 400%nat, LookupMissing, tr. unfold lookupRoute, missingInput. rewrite E.
    split; [reflexivity|]. split; [now left|]. split; [tauto|].
    split; [tauto|]. split; [|discriminate].
    split; [discriminate|]. intros (res & Hres & _). discriminate.
  - assert (Hvalid : ~ missingInput (Some c) (Some p)).
    { intros [[H|H]|[H|H]]; congruence. }
    destruct (searchPostalCode_valid_shape c p (enableFuzzy fuzzy) tr Hc Hp)
      as (res & tr' & Hrun & Hok & Hshape).
    rewrite (lookupRoute_run c p fuzzy tr Hc Hp _ _ Hrun), Hok.
    destruct Hshape as [[Hlen Hne]|(Hlen & Hnil & Hnone)]; rewrite Hlen.
    + exists 200%nat, (LookupAnswer res), tr'. split; [reflexivity|].
      split; [tauto|]. split; [split; [discriminate|tauto]|].
      split; [discriminate|]. split; [|discriminate].
      split; [intros _; now exists res|reflexivity].
    + exists 404%nat, (LookupAnswer res), tr'. split; [reflexivity|].
      split; [tauto|]. split; [split; [discriminate|tauto]|].
      split; [discriminate|]. split.
      * split; [discriminate|].
        intros (res' & Hres & Hne). injection Hres as <-. contradiction.
      * intros _. now exists res.
Qed.

(** X25. [GET /validate] with non-empty string parameters answers [true]
    exactly when the exact query of the store yields at least one row for
    the normalised country and postal code. *)
Theorem validate_route_answer (c p : string) (tr : Trace) :
  c <> "" -> p <> "" ->
  exists isValid tr',
    validateRoute statements (Some c) (Some p) tr
    = (Resolved (200%nat, ValidateAnswer isValid), tr')
    /\ (isValid = true <->
        exists rows,
          findExact statements (JS.toUpperCase (JS.trim c)) (JS.trim p)
          = Resolved rows
          /\ rows <> []).
Proof.
  intros Hc Hp. unfold validateRoute.
  rewrite (truthy_Some c Hc), (truthy_Some p Hp). cbn [negb orb].
  unfold try_catch, bind.
  rewrite (searchPostalCode_run statements c p true tr Hc Hp). cbv zeta.
  set (C := JS.toUpperCase (JS.trim c)). set (P := JS.trim p).
  destruct (findExact statements C P) as [[|row rows]|e] eqn:Eex;
    cbn [Design.softRows map List.length].
  - change (0 <? 0)%nat with false. cbv beta iota.
    case_nonempty Ef; eexists; eexists; (split; [reflexivity|]);
      cbn [success matchType andb];
      (split; [discriminate|intros (rows & Hrows & Hne); congruence]).
  - change (0 <? S (List.length (map fromStore rows)))%nat with true.
    cbv beta iota.
    eexists. eexists. split; [reflexivity|].
    split; [intros _; eexists; split; [reflexivity|discriminate]|reflexivity].
  - change (0 <? 0)%nat with false. cbv beta iota.
    case_nonempty Ef; eexists; eexists; (split; [reflexivity|]);
      cbn [success matchType andb];
      (split; [discriminate|intros (rows & Hrows & Hne); congruence]).
Qed.

(** X26. [GET /validate] is not an exact-only check: when the exact query
    yields no row, the request goes on to run the whole fuzzy stage (the
    fuzzy-pattern query, the prefix queries and the place-name query) before
    it answers [false]. *)
Theorem validate_route_runs_the_fuzzy_stage (c p : string) (tr : Trace) :
  c <> "" -> p <> "" ->
  (findExact statements (JS.toUpperCase (JS.trim c)) (JS.trim p) = Resolved []
   \/ exists e,
       findExact statements (JS.toUpperCase (JS.trim c)) (JS.trim p) = Rejected e) ->
  validateRoute statements (Some c) (Some p) tr
  = (Resolved (200%nat, ValidateAnswer false),
     tr ++ [FindExact (JS.toUpperCase (JS.trim c)) (JS.trim p)]
        ++ Design.fuzzyCalls statements (JS.toUpperCase (JS.trim c)) (JS.trim p)).
Proof.
  intros Hc Hp Hexact. unfold validateRoute.
  rewrite (truthy_Some c Hc), (truthy_Some p Hp). cbn [negb orb].
  unfold try_catch, bind.
  rewrite (searchPostalCode_run statements c p true tr Hc Hp). cbv zeta.
  rewrite (no_rows_soft _ Hexact). cbn [List.length].
  change (0 <? 0)%nat with false. cbv beta iota.
  rewrite <- app_assoc.
  case_nonempty Ef; reflexivity.
Qed.


End RouteFacts.

(** X28. [GET /health] answers 200 exactly when the service is
    initialised and the statistics query resolves with a positive
    [total_records], and 503 in every other case: an uninitialised service,
    a rejected statistics query, or no record. *)
Theorem health_route_status (searchService : option (Outcome DatabaseStats)) :
  (fst (healthRoute searchService) = 200%nat
   <-> exists s, searchService = Some (Resolved s) /\ (0 < total_records s)%Z)
  /\ (fst (healthRoute searchService) = 503%nat
      <-> searchService = None
          \/ (exists e, searchService = Some (Rejected e))
          \/ (exists s, searchService = Some (Resolved s)
                        /\ (total_records s <= 0)%Z)).
Proof.
  destruct searchService as [[s|e]|]; cbn.
  - destruct (Z.ltb_spec 0 (total_records s)); (split; split).
    + intros _. now exists s.
    + reflexivity.
    + discriminate.
    + intros [E|[(e & E)|(s' & E & Hs)]]; try discriminate.
      injection E as <-. lia.
    + discriminate.
    + intros (s' & E & Hs). injection E as <-. lia.
    + intros _. right. right. now exists s.
    + reflexivity.
  - split; split.
    + discriminate.
    + intros (s & E & _). discriminate.
    + intros _. right. left. now exists e.
    + reflexivity.
  - split; split.
    + discriminate.
    + intros (s & E & _). discriminate.
    + intros _. now left.
    + reflexivity.
Qed.

(** ** Timing statistics *)

Lemma ascending_before (x y : Z) :
  Qle_bool (inject_Z (x - y)) 0 = true -> (x <= y)%Z.
Proof.
  intro H. apply Qle_bool_iff in H. unfold Qle in H. simpl in H. lia.
Qed.

Lemma ascending_after (x y : Z) :
  Qle_bool (inject_Z (x - y)) 0 = false -> (y <= x)%Z.
Proof.
  intro H. apply Qle_bool_false in H. unfold Qlt in H. simpl in H. lia.
Qed.

Lemma sort_ascending (times : list Z) :
  StronglySorted Z.le (sort (fun a b => inject_Z (a - b)) times).
Proof.
  apply Sorted_StronglySorted; [exact Z.le_trans|].
  apply (sort_Sorted _ Z.le ascending_before ascending_after).
Qed.

Lemma StronglySorted_nth (l : list Z) (i j : nat) :
  StronglySorted Z.le l -> (i <= j < List.length l)%nat ->
  (nth i l 0 <= nth j l 0)%Z.
Proof.
  intro Hs. revert i j. induction Hs as [|a l Hs IH Ha]; intros i j Hij.
  - simpl in Hij. lia.
  - destruct j as [|j].
    + assert (i = 0%nat) by lia. subst. lia.
    + destruct i as [|i]; cbn [nth].
      * apply (proj1 (Forall_forall _ _) Ha). apply nth_In. simpl in Hij. lia.
      * apply IH. simpl in Hij. lia.
Qed.

Lemma total_from (l : list Z) (acc : Z) :
  fold_left Z.add l acc = (acc + fold_left Z.add l 0)%Z.
Proof.
  revert acc. induction l as [|a l IH]; intro acc; simpl; [lia|].
  rewrite (IH (acc + a)%Z), (IH a). lia.
Qed.

Lemma total_bounds (l : list Z) (lo hi : Z) :
  (forall t, In t l -> lo <= t <= hi)%Z ->
  (Z.of_nat (List.length l) * lo <= APITester.total l
   <= Z.of_nat (List.length l) * hi)%Z.
Proof.
  unfold APITester.total. induction l as [|a l IH]; intro H.
  - simpl. lia.
  - cbn [fold_left]. rewrite total_from.
    assert (Ha : (lo <= a <= hi)%Z) by (apply H; now left).
    assert (Hl : forall t, In t l -> (lo <= t <= hi)%Z) by (intros; apply H; now right).
    specialize (IH Hl). cbn [List.length]. lia.
Qed.

Lemma calculateStats_shape (times : list Z) :
  times <> [] ->
  exists sorted,
    Permutation sorted times
    /\ StronglySorted Z.le sorted
    /\ APITester.calculateStats times
       = Some {| APITester.min := nth 0 sorted 0%Z;
                 APITester.max := nth (List.length sorted - 1) sorted 0%Z;
                 APITester.avg :=
                   APITester.round (inject_Z (APITester.total sorted)
                                    / Qnat (List.length sorted));
                 APITester.median := nth (List.length sorted / 2) sorted 0%Z;
                 APITester.p95 := nth (List.length sorted * 95 / 100) sorted 0%Z;
                 APITester.count := List.length sorted |}.
Proof.
  intro Hne. exists (sort (fun a b => inject_Z (a - b)) times).
  split; [apply sort_Permutation|]. split; [apply sort_ascending|].
  unfold APITester.calculateStats.
  destruct times; [congruence|reflexivity].
Qed.

Lemma sorted_extremes (sorted : list Z) (t : Z) :
  StronglySorted Z.le sorted -> In t sorted ->
  (nth 0 sorted 0 <= t <= nth (List.length sorted - 1) sorted 0)%Z.
Proof.
  intros Hs Ht. apply In_nth with (d := 0%Z) in Ht as (i & Hi & <-).
  split; apply StronglySorted_nth; try exact Hs; lia.
Qed.

(** X29. [calculateStats] answers [null] exactly for an empty list;
    otherwise [count] is the number of times, [min] and [max] are times of
    the list that bound every other one, and
    [min <= median <= p95 <= max]. *)
Theorem timing_stats_are_ordered (times : list Z) :
  match APITester.calculateStats times with
  | None => times = []
  | Some st =>
      times <> []
      /\ APITester.count st = List.length times
      /\ In (APITester.min st) times /\ In (APITester.max st) times
      /\ (forall t, In t times -> APITester.min st <= t <= APITester.max st)%Z
      /\ (APITester.min st <= APITester.median st
          /\ APITester.median st <= APITester.p95 st
          /\ APITester.p95 st <= APITester.max st)%Z
  end.
Proof.
  destruct times as [|t0 times]; [reflexivity|].
  set (l := t0 :: times).
  destruct (calculateStats_shape l) as (sorted & Hperm & Hs & ->); [discriminate|].
  cbn [APITester.count APITester.min APITester.max APITester.median APITester.p95].
  assert (Hlen : List.length sorted = S (List.length times)).
  { now rewrite (Permutation_length Hperm). }
  split; [discriminate|]. split; [exact Hlen|].
  assert (Hin : forall i, (i < List.length sorted)%nat -> In (nth i sorted 0%Z) l).
  { intros i Hi. apply (Permutation_in _ Hperm). now apply nth_In. }
  split; [apply Hin; lia|]. split; [apply Hin; lia|].
  split.
  - intros t Ht. apply (Permutation_in _ (Permutation_sym Hperm)) in Ht.
    now apply sorted_extremes.
  - assert (H2 : (List.length sorted / 2 < List.length sorted)%nat).
    { apply Nat.div_lt; lia. }
    assert (H95 : (List.length sorted * 95 / 100 < List.length sorted)%nat).
    { apply Nat.Div0.div_lt_upper_bound. lia. }
    assert (Hmid : (List.length sorted / 2 <= List.length sorted * 95 / 100)%nat).
    { apply Nat.div_le_lower_bound; [lia|].
      pose proof (Nat.Div0.mul_div_le (List.length sorted) 2). lia. }
    repeat split; apply StronglySorted_nth; try exact Hs; lia.
Qed.

(** X30. The average that [calculateStats] reports, rounded to a whole
    number, lies between the minimum and the maximum it reports. *)
Theorem timing_average_is_between_min_and_max (times : list Z)
        (st : APITester.TimingStats) :
  APITester.calculateStats times = Some st ->
  (APITester.min st <= APITester.avg st <= APITester.max st)%Z.
Proof.
  intro Hcalc.
  assert (Hne : times <> []) by (intros ->; discriminate).
  destruct (calculateStats_shape times Hne) as (sorted & Hperm & Hs & E).
  rewrite E in Hcalc. injection Hcalc as <-.
  cbn [APITester.min APITester.max APITester.avg].
  assert (Hn : (0 < List.length sorted)%nat).
  { rewrite (Permutation_length Hperm). destruct times; [congruence|simpl; lia]. }
  set (lo := nth 0 sorted 0%Z). set (hi := nth (List.length sorted - 1) sorted 0%Z).
  pose proof (total_bounds sorted lo hi (fun t Ht => sorted_extremes sorted t Hs Ht))
    as [Hlo Hhi].
  set (n := List.length sorted) in *. set (sum := APITester.total sorted) in *.
  assert (Hq : inject_Z lo <= inject_Z sum / Qnat n
               /\ inject_Z sum / Qnat n <= inject_Z hi).
  { split.
    - apply Qle_shift_div_l; [now apply Qnat_pos|].
      unfold Qnat. rewrite <- inject_Z_mult, <- Zle_Qle. lia.
    - apply Qle_shift_div_r; [now apply Qnat_pos|].
      unfold Qnat. rewrite <- inject_Z_mult, <- Zle_Qle. lia. }
  destruct Hq as [Hq1 Hq2]. unfold APITester.round. split.
  - rewrite <- (Qfloor_Z lo). apply Qfloor_resp_le. lra.
  - pose proof (Qfloor_le (inject_Z sum / Qnat n + (1 # 2))) as Hf.
    assert (Hlt : inject_Z (Qfloor (inject_Z sum / Qnat n + (1 # 2)))
                  < inject_Z (hi + 1)).
    { rewrite inject_Z_plus. change (inject_Z 1) with 1. lra. }
    rewrite <- Zlt_Qlt in Hlt. lia.
Qed.

(** ** Concrete instances of the further properties *)

Lemma empty_string_scores_zero_witness :
  "90210" <> ""
  /\ calculateSimilarity "" "90210" == 0 /\ calculateSimilarity "90210" "" == 0.
Proof.
  split; [discriminate|].
  apply (empty_string_scores_zero "90210"). discriminate.
Defined.


Lemma no_prefix_for_short_queries_witness :
  (String.length "90" <= 2)%nat
  /\ partialPostalCodeSearch Sample.store "US" "90" [] = (Resolved [], []).
Proof.
  split; [simpl; lia|].
  apply (no_prefix_for_short_queries Sample.store "US" "90" []). simpl. lia.
Defined.

Lemma rejected_prefix_query_discards_rows_witness :
  findFuzzy Demo.flakyStore "US" "9021" = Resolved [Demo.beverlyHills]
  /\ partialPostalCodeSearch Demo.flakyStore "US" "90210" []
     = (Resolved [], [] ++ [FindFuzzy "US" "9021"; FindFuzzy "US" "902"])
  /\ @nil Candidate = [].
Proof.
  split; [reflexivity|]. split; [vm_compute; reflexivity|].
  apply (rejected_prefix_query_discards_rows Demo.flakyStore "US" "90210" []
           [] [FindFuzzy "US" "9021"; FindFuzzy "US" "902"] "902").
  - vm_compute. reflexivity.
  - right. left. reflexivity.
  - eexists. reflexivity.
Defined.

Lemma tableStore_honours_the_limit (table : list PostalRecord) (c q : string)
      (rs : list PostalRecord) :
  findFuzzy (Sample.tableStore table) c q = Resolved rs ->
  (List.length rs <= 20)%nat.
Proof.
  intro H.
  apply (f_equal (fun o => match o with
                           | Resolved r => List.length r
                           | Rejected _ => 0%nat
                           end)) in H.
  cbn [findFuzzy Sample.tableStore] in H. rewrite <- H. apply firstn_le_length.
Qed.

Lemma prefix_rows_are_bounded_witness :
  exists out tr',
    partialPostalCodeSearch Sample.store "US" "9021" [] = (Resolved out, tr')
    /\ (List.length out <= 19 + 20)%nat.
Proof.
  apply (prefix_rows_are_bounded Sample.store "US" "9021" 20 []).
  intros q rs H. exact (tableStore_honours_the_limit _ _ _ _ H).
Defined.

Lemma returned_entries_are_scored_store_rows_witness :
  let r := scored "9021" (fromStore Demo.beverlyHills) in
  similarity_score r = Some (calculateSimilarity "9021" (postal_code r))
  /\ ((exists q rows,
          findFuzzy Sample.store "US" q = Resolved rows /\ In (record r) rows)
      \/ (exists rows,
             findByPlace Sample.store "US" "9021" = Resolved rows
             /\ In (record r) rows)).
Proof.
  cbv zeta.
  eapply (returned_entries_are_scored_store_rows Sample.store "US" "9021" []).
  - vm_compute. reflexivity.
  - left. reflexivity.
Defined.

Lemma qualifying_candidates_are_returned_witness :
  (5 # 10) < calculateSimilarity "9021" "90210"
  /\ exists out tr',
      findFuzzyMatches Sample.store "US" "9021" [] = (Resolved out, tr')
      /\ (List.length out < 20)%nat
      /\ In (scored "9021" (fromStore Demo.beverlyHills)) out.
Proof.
  split; [vm_compute; reflexivity|].
  eexists. eexists. split; [vm_compute; reflexivity|]. split; [simpl; lia|].
  eapply (qualifying_candidates_are_returned Sample.store "US" "9021" [] _ _ []
            _ (fromStore Demo.beverlyHills)).
  - vm_compute. reflexivity.
  - simpl. lia.
  - vm_compute. reflexivity.
  - intros c' [].
  - vm_compute. reflexivity.
Defined.

Lemma full_address_fragments_witness :
  plainText (fromStore Demo.beverlyHills)
  /\ constructFullAddress (fromStore Demo.beverlyHills) = "Beverly Hills, CA 90210"
  /\ NoDup (map JS.toLowerCase ["Beverly Hills"; "CA 90210"]).
Proof.
  assert (H : plainText (fromStore Demo.beverlyHills))
    by (unfold plainText; repeat split; reflexivity).
  split; [exact H|].
  pose proof (full_address_fragments (fromStore Demo.beverlyHills) H) as W.
  cbv zeta in W. destruct W as (E & Hnd & _).
  split; [exact E|exact Hnd].
Defined.

Lemma store_outage_is_reported_as_no_match_witness :
  exists added,
    searchPostalCode Sample.downStore (Some "US") (Some "90210") true []
    = (Resolved {| success := true;
                   error := None;
                   matchType := Some MatchType.none;
                   query := Some {| country := JS.toUpperCase (JS.trim "US");
                                    postalCode := JS.trim "90210" |};
                   results := [] |},
       [] ++ added)
    /\ (List.length added <= 4)%nat.
Proof.
  apply (store_outage_is_reported_as_no_match Sample.downStore "US" "90210" true []).
  - discriminate.
  - discriminate.
  - intros a b. eexists. reflexivity.
  - intros a b. eexists. reflexivity.
  - intros a b. eexists. reflexivity.
Defined.

Lemma bare_record_address_witness :
  constructFullAddress (fromStore Demo.bareRecord)
  = if ("018956" =? "")%string then "Address not available" else "018956".
Proof.
  apply (bare_record_address (fromStore Demo.bareRecord)); reflexivity.
Defined.

Lemma batch_answers_every_search_witness :
  In None [@None Search.t]
  /\ exists e tr',
      searchMultiple Sample.store [None] [] = (Rejected e, tr').
Proof.
  assert (H : In None [@None Search.t]) by now left.
  split; [exact H|].
  exact (proj1 (batch_answers_every_search Sample.store [None] []) H).
Defined.

Lemma batch_entries_echo_the_query_witness :
  exists entry tr',
    searchMultiple Sample.store [Some Demo.numericCountry] []
    = (Resolved [entry], tr')
    /\ BatchEntry.query entry = BatchEntry.Raw Demo.numericCountry
    /\ BatchEntry.success entry = false
    /\ BatchEntry.error entry = Some "Internal search error".
Proof.
  destruct (batch_entries_echo_the_query Sample.store [Demo.numericCountry] [])
    as (entries & tr' & E & H).
  inversion H as [|search entry rest entries' Hone Hrest]; subst.
  inversion Hrest; subst.
  destruct Hone as (_ & Hone & _).
  destruct (Hone eq_refl eq_refl eq_refl) as (Hq & Hs & He).
  exists entry, tr'. repeat split; assumption.
Defined.

Lemma suggest_refuses_short_input_witness :
  (String.length "9" < 2)%nat
  /\ suggest Sample.store (Some "US") (Some "9") None []
     = (Resolved
          {| SuggestResult.success := false;
             SuggestResult.error :=
               Some "Country and at least 2 characters of postal code required";
             SuggestResult.query := None;
             SuggestResult.suggestions := [] |},
        []).
Proof.
  split; [simpl; lia|].
  apply (suggest_refuses_short_input Sample.store (Some "US") (Some "9") None []).
  right. right. exists "9". split; [reflexivity|simpl; lia].
Defined.

Lemma suggestions_are_limited_and_distinct_witness :
  exists res,
    suggest Sample.store (Some "us") (Some "902") (Some 2%Z) []
    = (Resolved res, [] ++ [FindFuzzy (JS.toUpperCase (JS.trim "us")) (JS.trim "902")])
    /\ SuggestResult.success res = true
    /\ (Z.of_nat (List.length (SuggestResult.suggestions res)) <= Z.max 0 2)%Z
    /\ NoDup (map keyOfSuggestion (SuggestResult.suggestions res))
    /\ forall s, In s (SuggestResult.suggestions res) ->
                 exists row,
                   In row (firstn 3 Sample.table)
                   /\ s = toSuggestion (fromStore row).
Proof.
  apply (suggestions_are_limited_and_distinct Sample.store "us" "902" (Some 2%Z) []
           (firstn 3 Sample.table)).
  - discriminate.
  - simpl. lia.
  - reflexivity.
Defined.

Lemma suggestions_keep_every_key_below_the_limit_witness :
  exists res,
    suggest Sample.store (Some "US") (Some "902") None [] = (Resolved res, [FindFuzzy "US" "902"])
    /\ List.length (SuggestResult.suggestions res) = 3%nat
    /\ exists s, In s (SuggestResult.suggestions res)
                 /\ keyOfSuggestion s = suggestionKey (fromStore Demo.beverlyHills).
Proof.
  eexists. split; [vm_compute; reflexivity|]. split; [reflexivity|].
  eapply (suggestions_keep_every_key_below_the_limit Sample.store "US" "902" None
            [] _ (firstn 3 Sample.table) _ Demo.beverlyHills).
  - discriminate.
  - simpl. lia.
  - reflexivity.
  - vm_compute. reflexivity.
  - simpl. lia.
  - left. reflexivity.
Defined.

Lemma suggest_fails_when_the_store_fails_witness :
  suggest Sample.downStore (Some "US") (Some "902") None []
  = (Resolved
       {| SuggestResult.success := false;
          SuggestResult.error := Some "Internal suggestion error";
          SuggestResult.query := None;
          SuggestResult.suggestions := [] |},
     [] ++ [FindFuzzy (JS.toUpperCase (JS.trim "US")) (JS.trim "902")]).
Proof.
  apply (suggest_fails_when_the_store_fails Sample.downStore "US" "902" None []).
  - discriminate.
  - simpl. lia.
  - eexists. reflexivity.
Defined.

Lemma validate_route_answer_witness :
  exists isValid tr',
    validateRoute Sample.store (Some "US") (Some "90210") []
    = (Resolved (200%nat, ValidateAnswer isValid), tr')
    /\ (isValid = true <->
        exists rows,
          findExact Sample.store (JS.toUpperCase (JS.trim "US")) (JS.trim "90210")
          = Resolved rows
          /\ rows <> []).
Proof.
  apply (validate_route_answer Sample.store "US" "90210" []); discriminate.
Defined.

Lemma validate_route_runs_the_fuzzy_stage_witness :
  validateRoute Sample.store (Some "US") (Some "9021") []
  = (Resolved (200%nat, ValidateAnswer false),
     [] ++ [FindExact (JS.toUpperCase (JS.trim "US")) (JS.trim "9021")]
        ++ Design.fuzzyCalls Sample.store (JS.toUpperCase (JS.trim "US"))
                             (JS.trim "9021"))
  /\ Design.fuzzyCalls Sample.store "US" "9021"
     = [FindFuzzy "US" "9021"; FindFuzzy "US" "902"; FindFuzzy "US" "90";
        FindByPlace "US" "9021"].
Proof.
  split; [|reflexivity].
  apply (validate_route_runs_the_fuzzy_stage Sample.store "US" "9021" []).
  - discriminate.
  - discriminate.
  - left. reflexivity.
Defined.


Lemma timing_average_is_between_min_and_max_witness :
  let st := {| APITester.min := 80; APITester.max := 121; APITester.avg := 101;
               APITester.median := 101; APITester.p95 := 121;
               APITester.count := 3 |}%Z in
  APITester.calculateStats [121; 80; 101]%Z = Some st
  /\ (APITester.min st <= APITester.avg st <= APITester.max st)%Z.
Proof.
  cbv zeta. split; [vm_compute; reflexivity|].
  apply (timing_average_is_between_min_and_max [121; 80; 101]%Z).
  vm_compute. reflexivity.
Defined.
